(** * 3Dmath.h: a shallow embedding of the 3D math kernel

    The header defines three-component vectors, 4x4 row-major matrices and
    the constructors of the usual transformation matrices over the scalar
    type [seFloat].  The functions are embedded once, over an abstract
    scalar interface, and the interface is instantiated twice:

    - [R_Scalar]: the real numbers, the exact arithmetic in which the
      algebraic properties of the kernel are stated;
    - [b32_Scalar]: IEEE 754 binary32 ([float]), on the executable
      specification of floating-point arithmetic of the Standard Library,
      in which the behaviour on representations (the byte fill of
      [seM4Fill]) and on degenerate inputs (division by zero) is stated.
      Every operation on [seFloat] rounds to binary32 (no excess
      precision, no fused multiply-add), to nearest, ties to even. *)

From Stdlib Require Import ZArith QArith Reals Lra Lia Bool.
From Stdlib Require Import Qreals R_Ifp RNsatz Machin.
From Stdlib Require Import Floats.SpecFloat.

Set Implicit Arguments.

(** ** The scalar interface *)

(** What the header asks of [seFloat]: the four arithmetic operations,
    negation, [sqrtf], the conversion of a literal constant, the
    conversion to [int] that passing an [seFloat] to [memset] performs, and
    the value denoted by a four-byte object representation. *)
Class Scalar (F : Type) : Type := {
  fadd : F -> F -> F;
  fsub : F -> F -> F;
  fmul : F -> F -> F;
  fdiv : F -> F -> F;
  fneg : F -> F;
  fsqrt : F -> F;
  flit : Q -> F;
  float_to_int : F -> Z;
  of_bits : Z -> F
}.

(** The double-precision functions of [<math.h>] that the header calls on
    [seFloat] arguments: C converts the argument to [double], computes in
    [double] and converts back when the result is stored in an [seFloat]. *)
Class Libm (F D : Type) : Type := {
  to_double : F -> D;
  of_double : D -> F;
  ddiv : D -> D -> D;
  dcos : D -> D;
  dsin : D -> D;
  dtan : D -> D
}.

(** A literal constant of type [double]. *)
Class DoubleLit (D : Type) : Type := {
  dlit : Q -> D
}.

Declare Scope scalar_scope.
Delimit Scope scalar_scope with S.
Notation "a + b" := (fadd a b) : scalar_scope.
Notation "a - b" := (fsub a b) : scalar_scope.
Notation "a * b" := (fmul a b) : scalar_scope.
Notation "a / b" := (fdiv a b) : scalar_scope.
Notation "- a" := (fneg a) : scalar_scope.

(** ** Structures *)

(** [typedef struct { seFloat x, y, z; } seVec3;] *)
Record seVec3 (F : Type) : Type := mkVec3 { x : F; y : F; z : F }.

(** [typedef struct { seFloat e[16]; } seMat4;] with one field per element
    of the array: [e5 m] is [m.e[5]]. *)
Record seMat4 (F : Type) : Type := mkMat4 {
  e0 : F;  e1 : F;  e2 : F;  e3 : F;
  e4 : F;  e5 : F;  e6 : F;  e7 : F;
  e8 : F;  e9 : F;  e10 : F; e11 : F;
  e12 : F; e13 : F; e14 : F; e15 : F
}.

(** [typedef struct { seFloat e[9]; } seMat3;]: [e5' m] is [m.e[5]] for a
    3x3 matrix [m]. *)
Record seMat3 (F : Type) : Type := mkMat3 {
  e0' : F; e1' : F; e2' : F;
  e3' : F; e4' : F; e5' : F;
  e6' : F; e7' : F; e8' : F
}.

Section Arrays.
Context {F : Type}.

(** [m.e[i]] for a constant index [i] (every index in the header is a
    literal between 0 and 15). *)
Definition get_e (m : seMat4 F) (i : nat) : F :=
  match i with
  | 0 => e0 m | 1 => e1 m | 2 => e2 m | 3 => e3 m
  | 4 => e4 m | 5 => e5 m | 6 => e6 m | 7 => e7 m
  | 8 => e8 m | 9 => e9 m | 10 => e10 m | 11 => e11 m
  | 12 => e12 m | 13 => e13 m | 14 => e14 m | _ => e15 m
  end%nat.

(** The assignment [m.e[i] = v] on a local copy of the structure. *)
Definition set_e (m : seMat4 F) (i : nat) (v : F) : seMat4 F :=
  let 'mkMat4 a0 a1 a2 a3 a4 a5 a6 a7 a8 a9 a10 a11 a12 a13 a14 a15 := m in
  match i with
  | 0 => mkMat4 v a1 a2 a3 a4 a5 a6 a7 a8 a9 a10 a11 a12 a13 a14 a15
  | 1 => mkMat4 a0 v a2 a3 a4 a5 a6 a7 a8 a9 a10 a11 a12 a13 a14 a15
  | 2 => mkMat4 a0 a1 v a3 a4 a5 a6 a7 a8 a9 a10 a11 a12 a13 a14 a15
  | 3 => mkMat4 a0 a1 a2 v a4 a5 a6 a7 a8 a9 a10 a11 a12 a13 a14 a15
  | 4 => mkMat4 a0 a1 a2 a3 v a5 a6 a7 a8 a9 a10 a11 a12 a13 a14 a15
  | 5 => mkMat4 a0 a1 a2 a3 a4 v a6 a7 a8 a9 a10 a11 a12 a13 a14 a15
  | 6 => mkMat4 a0 a1 a2 a3 a4 a5 v a7 a8 a9 a10 a11 a12 a13 a14 a15
  | 7 => mkMat4 a0 a1 a2 a3 a4 a5 a6 v a8 a9 a10 a11 a12 a13 a14 a15
  | 8 => mkMat4 a0 a1 a2 a3 a4 a5 a6 a7 v a9 a10 a11 a12 a13 a14 a15
  | 9 => mkMat4 a0 a1 a2 a3 a4 a5 a6 a7 a8 v a10 a11 a12 a13 a14 a15
  | 10 => mkMat4 a0 a1 a2 a3 a4 a5 a6 a7 a8 a9 v a11 a12 a13 a14 a15
  | 11 => mkMat4 a0 a1 a2 a3 a4 a5 a6 a7 a8 a9 a10 v a12 a13 a14 a15
  | 12 => mkMat4 a0 a1 a2 a3 a4 a5 a6 a7 a8 a9 a10 a11 v a13 a14 a15
  | 13 => mkMat4 a0 a1 a2 a3 a4 a5 a6 a7 a8 a9 a10 a11 a12 v a14 a15
  | 14 => mkMat4 a0 a1 a2 a3 a4 a5 a6 a7 a8 a9 a10 a11 a12 a13 v a15
  | _ => mkMat4 a0 a1 a2 a3 a4 a5 a6 a7 a8 a9 a10 a11 a12 a13 a14 v
  end%nat.

(** Row-major addressing: the element in row [r] and column [c] is
    [e[4*r + c]]. *)
Definition elem (m : seMat4 F) (r c : nat) : F := get_e m (4 * r + c).

(** The first three entries of row [r], as a vector. *)
Definition row3 (m : seMat4 F) (r : nat) : seVec3 F :=
  mkVec3 (elem m r 0) (elem m r 1) (elem m r 2).

(** Row-major addressing in a 3x3 matrix: [e[3*r + c]]. *)
Definition elem3 (m : seMat3 F) (r c : nat) : F :=
  match (3 * r + c)%nat with
  | 0 => e0' m | 1 => e1' m | 2 => e2' m
  | 3 => e3' m | 4 => e4' m | 5 => e5' m
  | 6 => e6' m | 7 => e7' m | _ => e8' m
  end%nat.

(** The 3x3 matrix with given entries. *)
Definition build3 (f : nat -> nat -> F) : seMat3 F :=
  (mkMat3 (f 0 0) (f 0 1) (f 0 2)
          (f 1 0) (f 1 1) (f 1 2)
          (f 2 0) (f 2 1) (f 2 2))%nat.

(** Component [i] of a vector. *)
Definition comp (v : seVec3 F) (i : nat) : F :=
  match i with 0 => x v | 1 => y v | _ => z v end%nat.

(** The upper-left 3x3 block. *)
Definition upper3 (m : seMat4 F) : seMat3 F :=
  mkMat3 (elem m 0 0) (elem m 0 1) (elem m 0 2)
         (elem m 1 0) (elem m 1 1) (elem m 1 2)
         (elem m 2 0) (elem m 2 1) (elem m 2 2).

(** The first three entries of the fourth column, and the bottom row. *)
Definition column4 (m : seMat4 F) : seVec3 F :=
  mkVec3 (elem m 0 3) (elem m 1 3) (elem m 2 3).

Definition bottom_row (m : seMat4 F) : F * F * F * F :=
  (elem m 3 0, elem m 3 1, elem m 3 2, elem m 3 3).

(** [P] holds of each of the sixteen elements. *)
Definition all_e (P : F -> bool) (m : seMat4 F) : bool :=
  P (e0 m) && P (e1 m) && P (e2 m) && P (e3 m) &&
  P (e4 m) && P (e5 m) && P (e6 m) && P (e7 m) &&
  P (e8 m) && P (e9 m) && P (e10 m) && P (e11 m) &&
  P (e12 m) && P (e13 m) && P (e14 m) && P (e15 m).
End Arrays.

(** ** The kernel *)

Section Kernel.
Context {F : Type} {SF : Scalar F}.
Local Open Scope scalar_scope.

(** [#define SE_PI 3.14159265358979323846f] *)
Definition SE_PI : F := flit 3.14159265358979323846.

(** [#define SE_DEG2RAD(n) (n*(SE_PI/180.0f))] *)
Definition SE_DEG2RAD (n : F) : F := n * (SE_PI / flit 180).

(** [#define SE_RAD2DEG(n) (n*(180.0f/SE_PI))] *)
Definition SE_RAD2DEG (n : F) : F := n * (flit 180 / SE_PI).

(** [#define SE_SQUARED(n) (n*n)] *)
Definition SE_SQUARED (n : F) : F := n * n.

(** *** 3D vectors *)

Definition seV3Assign (x y z : F) : seVec3 F :=
  {| x := x; y := y; z := z |}.

Definition seV3Length (v : seVec3 F) : F :=
  fsqrt (SE_SQUARED (x v) + SE_SQUARED (y v) + SE_SQUARED (z v)).

Definition seV3Dot (v1 v2 : seVec3 F) : F :=
  (x v1 * x v2) + (y v1 * y v2) + (z v1 * z v2).

Definition seV3Cross (v1 v2 : seVec3 F) : seVec3 F :=
  {| x := (y v1 * z v2) - (z v1 * y v2);
     y := (z v1 * x v2) - (x v1 * z v2);
     z := (x v1 * y v2) - (y v1 * x v2) |}.

Definition seV3Normalize (v : seVec3 F) : seVec3 F :=
  let len := seV3Length v in
  {| x := x v / len;
     y := y v / len;
     z := z v / len |}.

Definition seV3Scale (v : seVec3 F) (len : F) : seVec3 F :=
  let v := seV3Normalize v in
  {| x := x v * len;
     y := y v * len;
     z := z v * len |}.

Definition seV3Add (v1 v2 : seVec3 F) : seVec3 F :=
  {| x := x v1 + x v2;
     y := y v1 + y v2;
     z := z v1 + z v2 |}.

Definition seV3Subtract (v1 v2 : seVec3 F) : seVec3 F :=
  {| x := x v1 - x v2;
     y := y v1 - y v2;
     z := z v1 - z v2 |}.

Definition seV3MultiplyM3 (m : seMat3 F) (v : seVec3 F) : seVec3 F :=
  {| x := (e0' m * x v) + (e1' m * y v) + (e2' m * z v);
     y := (e3' m * x v) + (e4' m * y v) + (e5' m * z v);
     z := (e6' m * x v) + (e7' m * y v) + (e8' m * z v) |}.

(** *** 4x4 matrices *)

(** The byte that [memset] stores: its [int] argument converted to
    [unsigned char]. *)
Definition fill_byte (c : Z) : Z := (c mod 256)%Z.

(** The four-byte word all of whose bytes are [b]. *)
Definition fill_word (b : Z) : Z :=
  (b + b * 2 ^ 8 + b * 2 ^ 16 + b * 2 ^ 24)%Z.

(** [memset(&out.e, n, sizeof(out.e))]: [n] is converted to [int], the
    sixty-four bytes of the array are set to the low byte of that
    integer, and each element then denotes whatever value has four
    copies of that byte as its representation. *)
Definition seM4Fill (n : F) : seMat4 F :=
  let v := of_bits (fill_word (fill_byte (float_to_int n))) in
  mkMat4 v v v v v v v v v v v v v v v v.

Definition seM4Multiply (A B : seMat4 F) : seMat4 F :=
  {| e0  := (e0 A  * e0 B) + (e1 A  * e4 B) + (e2 A  * e8 B)  + (e3 A  * e12 B);
     e1  := (e0 A  * e1 B) + (e1 A  * e5 B) + (e2 A  * e9 B)  + (e3 A  * e13 B);
     e2  := (e0 A  * e2 B) + (e1 A  * e6 B) + (e2 A  * e10 B) + (e3 A  * e14 B);
     e3  := (e0 A  * e3 B) + (e1 A  * e7 B) + (e2 A  * e11 B) + (e3 A  * e15 B);
     e4  := (e4 A  * e0 B) + (e5 A  * e4 B) + (e6 A  * e8 B)  + (e7 A  * e12 B);
     e5  := (e4 A  * e1 B) + (e5 A  * e5 B) + (e6 A  * e9 B)  + (e7 A  * e13 B);
     e6  := (e4 A  * e2 B) + (e5 A  * e6 B) + (e6 A  * e10 B) + (e7 A  * e14 B);
     e7  := (e4 A  * e3 B) + (e5 A  * e7 B) + (e6 A  * e11 B) + (e7 A  * e15 B);
     e8  := (e8 A  * e0 B) + (e9 A  * e4 B) + (e10 A * e8 B)  + (e11 A * e12 B);
     e9  := (e8 A  * e1 B) + (e9 A  * e5 B) + (e10 A * e9 B)  + (e11 A * e13 B);
     e10 := (e8 A  * e2 B) + (e9 A  * e6 B) + (e10 A * e10 B) + (e11 A * e14 B);
     e11 := (e8 A  * e3 B) + (e9 A  * e7 B) + (e10 A * e11 B) + (e11 A * e15 B);
     e12 := (e12 A * e0 B) + (e13 A * e4 B) + (e14 A * e8 B)  + (e15 A * e12 B);
     e13 := (e12 A * e1 B) + (e13 A * e5 B) + (e14 A * e9 B)  + (e15 A * e13 B);
     e14 := (e12 A * e2 B) + (e13 A * e6 B) + (e14 A * e10 B) + (e15 A * e14 B);
     e15 := (e12 A * e3 B) + (e13 A * e7 B) + (e14 A * e11 B) + (e15 A * e15 B) |}.

Definition seM4LookAt (eye center up : seVec3 F) : seMat4 F :=
  let f := seV3Normalize (seV3Subtract center eye) in
  let s := seV3Normalize (seV3Cross f up) in
  let u := seV3Cross s f in
  {| e0  := x s;
     e4  := x u;
     e8  := - x f;
     e12 := flit 0;
     e1  := y s;
     e5  := y u;
     e9  := - y f;
     e13 := flit 0;
     e2  := z s;
     e6  := z u;
     e10 := - z f;
     e14 := flit 0;
     e3  := - seV3Dot s eye;
     e7  := - seV3Dot u eye;
     e11 := seV3Dot f eye;
     e15 := flit 1 |}.

Definition seM4Identity : seMat4 F :=
  let out := seM4Fill (flit 0) in
  let out := set_e out 0 (flit 1) in
  let out := set_e out 5 (flit 1) in
  let out := set_e out 10 (flit 1) in
  let out := set_e out 15 (flit 1) in
  out.

Definition seM4Translate (x y z : F) : seMat4 F :=
  let out := seM4Fill (flit 0) in
  let out := set_e out 3 x in
  let out := set_e out 7 y in
  let out := set_e out 11 z in
  let out := set_e out 0 (flit 1) in
  let out := set_e out 5 (flit 1) in
  let out := set_e out 10 (flit 1) in
  let out := set_e out 15 (flit 1) in
  out.

Section Trigonometry.
Context {D : Type} {LM : Libm F D}.

(** [out.e[15] = 1.0;]: the constant is a [double], converted when it is
    stored. *)
Definition seM4Scale {DL : DoubleLit D} (x y z : F) : seMat4 F :=
  let out := seM4Fill (flit 0) in
  let out := set_e out 0 x in
  let out := set_e out 5 y in
  let out := set_e out 10 z in
  let out := set_e out 15 (of_double (dlit 1)) in
  out.

(** [seFloat ct = 1.0f / tan(angle / 2.0f);]: the half angle is
    computed in [seFloat], the tangent and the quotient in [double]. *)
Definition seM4Perspective (angle ratio near far : F) : seMat4 F :=
  let ct := of_double (ddiv (to_double (flit 1))
                            (dtan (to_double (angle / flit 2)))) in
  let out := seM4Fill (flit 0) in
  let out := set_e out 0 (ct / ratio) in
  let out := set_e out 5 ct in
  let out := set_e out 10 ((far + near) / (near - far)) in
  let out := set_e out 11 ((flit 2 * far * near) / (near - far)) in
  let out := set_e out 14 (flit (-1)) in
  out.

Definition seM4RotateEuler (x y z : F) : seMat4 F :=
  let cx := of_double (dcos (to_double (SE_DEG2RAD x))) in
  let sx := of_double (dsin (to_double (SE_DEG2RAD x))) in
  let cy := of_double (dcos (to_double (SE_DEG2RAD y))) in
  let sy := of_double (dsin (to_double (SE_DEG2RAD y))) in
  let cz := of_double (dcos (to_double (SE_DEG2RAD z))) in
  let sz := of_double (dsin (to_double (SE_DEG2RAD z))) in
  {| e0  := cy * cz;
     e1  := - cy * sz;
     e2  := sy;
     e4  := sx * sy * cz + cx * sz;
     e5  := - sx * sy * sz + cx * cz;
     e6  := - sx * cy;
     e8  := - cx * sy * cz + sx * sz;
     e9  := cx * sy * sz + sx * cz;
     e10 := cx * cy;
     e3  := flit 0;
     e7  := flit 0;
     e11 := flit 0;
     e12 := flit 0;
     e13 := flit 0;
     e14 := flit 0;
     e15 := flit 1 |}.

(** [seM4Rotate] is declared among the prototypes and defined nowhere:
    whatever the program is linked with stands for it. *)
Section Undefined.
Variable seM4Rotate : F -> F -> F -> seMat4 F.

Definition seM4RotateEulerV3 (v : seVec3 F) : seMat4 F :=
  seM4Rotate (x v) (y v) (z v).
End Undefined.

Definition seM4RotateAA (v : seVec3 F) (t : F) : seMat4 F :=
  let v := seV3Normalize v in
  let c := of_double (dcos (to_double (t * flit 0.01745329251))) in
  let s := of_double (dsin (to_double (t * flit 0.01745329251))) in
  {| e0  := c + x v * x v * (flit 1 - c);
     e1  := - z v * s + x v * y v * (flit 1 - c);
     e2  := y v * s + x v * z v * (flit 1 - c);
     e4  := z v * s + y v * x v * (flit 1 - c);
     e5  := c + y v * y v * (flit 1 - c);
     e6  := - x v * s + y v * z v * (flit 1 - c);
     e8  := - y v * s + z v * x v * (flit 1 - c);
     e9  := x v * s + z v * y v * (flit 1 - c);
     e10 := c + z v * z v * (flit 1 - c);
     e3  := flit 0;
     e7  := flit 0;
     e11 := flit 0;
     e12 := flit 0;
     e13 := flit 0;
     e14 := flit 0;
     e15 := flit 1 |}.
End Trigonometry.
End Kernel.

(** ** Conversion to [int] *)

Definition INT_MIN : Z := (- 2 ^ 31)%Z.
Definition INT_MAX : Z := (2 ^ 31 - 1)%Z.

(** The conversion of a floating value to [int] discards the fractional
    part.  Where the integral part is not an [int] (or there is none: an
    infinity, a NaN) C leaves the result open; the embedding returns what
    the conversion instructions of x86 return there, [INT_MIN]. *)
Definition int_of_trunc (t : option Z) : Z :=
  match t with
  | Some i => if ((INT_MIN <=? i) && (i <=? INT_MAX))%Z then i else INT_MIN
  | None => INT_MIN
  end.

(** ** IEEE 754 binary32 *)

Module B32.
Definition prec : Z := 24.
Definition emax : Z := 128.

(** The value of a 32-bit object representation: sign bit, eight bits of
    biased exponent, twenty-three bits of fraction. *)
Definition decode (w : Z) : spec_float :=
  let s := Z.testbit w 31 in
  let e := Z.land (Z.shiftr w 23) 255 in
  let m := Z.land w (2 ^ 23 - 1) in
  if (e =? 0)%Z then
    match m with
    | Zpos p => S754_finite s p (-149)
    | _ => S754_zero s
    end
  else if (e =? 255)%Z then
    match m with
    | Z0 => S754_infinity s
    | _ => S754_nan
    end
  else
    match (m + 2 ^ 23)%Z with
    | Zpos p => S754_finite s p (e - 150)
    | _ => S754_nan
    end.

(** A literal constant, rounded to the nearest binary32 number. *)
Definition of_Q (q : Q) : spec_float :=
  match Qnum q with
  | Z0 => S754_zero false
  | Zpos n =>
      SFdiv prec emax (S754_finite false n 0) (S754_finite false (Qden q) 0)
  | Zneg n =>
      SFdiv prec emax (S754_finite true n 0) (S754_finite false (Qden q) 0)
  end.

(** The integral part of a floating-point number, when it has one. *)
Definition trunc (a : spec_float) : option Z :=
  match a with
  | S754_zero _ => Some 0%Z
  | S754_finite s m e =>
      Some (cond_Zopp s
              (match e with
               | Zneg p => Z.shiftr (Zpos m) (Zpos p)
               | _ => Z.shiftl (Zpos m) e
               end))
  | _ => None
  end.

Definition is_finite (a : spec_float) : bool :=
  match a with S754_zero _ | S754_finite _ _ _ => true | _ => false end.
End B32.

#[export] Instance b32_Scalar : Scalar spec_float := {
  fadd := SFadd B32.prec B32.emax;
  fsub := SFsub B32.prec B32.emax;
  fmul := SFmul B32.prec B32.emax;
  fdiv := SFdiv B32.prec B32.emax;
  fneg := SFopp;
  fsqrt := SFsqrt B32.prec B32.emax;
  flit := B32.of_Q;
  float_to_int := fun a => int_of_trunc (B32.trunc a);
  of_bits := B32.decode
}.

(** The constant [q] as a binary32 number: the literal [q f] of C. *)
Definition f32 (q : Q) : spec_float := flit q.

(** The data of binary32 that are numbers: the zeros and the finite
    numbers in canonical form. *)
Definition ok32 (a : spec_float) : bool :=
  match a with
  | S754_zero _ => true
  | S754_finite _ m e => bounded B32.prec B32.emax m e
  | _ => false
  end.

Definition is_zero (a : spec_float) : bool :=
  match a with S754_zero _ => true | _ => false end.

(** [same32 u a]: [u] is [a], or both are zeros (of any signs). *)
Definition same32 (u a : spec_float) : Prop :=
  u = a \/ (is_zero u = true /\ is_zero a = true).

(** The comparison [==] of C on every element of two matrices. *)
Definition seMat4_eqb (A B : seMat4 spec_float) : bool :=
  SFeqb (e0 A) (e0 B) && SFeqb (e1 A) (e1 B) &&
  SFeqb (e2 A) (e2 B) && SFeqb (e3 A) (e3 B) &&
  SFeqb (e4 A) (e4 B) && SFeqb (e5 A) (e5 B) &&
  SFeqb (e6 A) (e6 B) && SFeqb (e7 A) (e7 B) &&
  SFeqb (e8 A) (e8 B) && SFeqb (e9 A) (e9 B) &&
  SFeqb (e10 A) (e10 B) && SFeqb (e11 A) (e11 B) &&
  SFeqb (e12 A) (e12 B) && SFeqb (e13 A) (e13 B) &&
  SFeqb (e14 A) (e14 B) && SFeqb (e15 A) (e15 B).

(** Every element of [A] is the element of [B] at its place, or a zero
    where [B] holds a zero. *)
Definition seMat4_same (A B : seMat4 spec_float) : Prop :=
  same32 (e0 A) (e0 B) /\ same32 (e1 A) (e1 B) /\
  same32 (e2 A) (e2 B) /\ same32 (e3 A) (e3 B) /\
  same32 (e4 A) (e4 B) /\ same32 (e5 A) (e5 B) /\
  same32 (e6 A) (e6 B) /\ same32 (e7 A) (e7 B) /\
  same32 (e8 A) (e8 B) /\ same32 (e9 A) (e9 B) /\
  same32 (e10 A) (e10 B) /\ same32 (e11 A) (e11 B) /\
  same32 (e12 A) (e12 B) /\ same32 (e13 A) (e13 B) /\
  same32 (e14 A) (e14 B) /\ same32 (e15 A) (e15 B).

(** A literal constant of type [double], rounded to the nearest binary64
    number. *)
Definition b64_of_Q (q : Q) : spec_float :=
  match Qnum q with
  | Z0 => S754_zero false
  | Zpos n =>
      SFdiv 53 1024 (S754_finite false n 0) (S754_finite false (Qden q) 0)
  | Zneg n =>
      SFdiv 53 1024 (S754_finite true n 0) (S754_finite false (Qden q) 0)
  end.

#[export] Instance b64_DoubleLit : DoubleLit spec_float := {
  dlit := b64_of_Q
}.

(** Binary64 for the calls into [<math.h>]; the three functions themselves
    belong to the C library and are taken as given. *)
Section B64.
Variables cos64 sin64 tan64 : spec_float -> spec_float.

Definition round_to (prec emax : Z) (a : spec_float) : spec_float :=
  match a with
  | S754_finite s m e => binary_round prec emax s m e
  | _ => a
  end.

Definition b64_Libm : Libm spec_float spec_float := {|
  to_double := round_to 53 1024;
  of_double := round_to B32.prec B32.emax;
  ddiv := SFdiv 53 1024;
  dcos := cos64;
  dsin := sin64;
  dtan := tan64
|}.
End B64.

(** ** Exact arithmetic *)

(** The real number a floating-point datum stands for; an infinity or a
    NaN stands for none and is sent to 0. *)
Definition SF2R (a : spec_float) : R :=
  match a with
  | S754_finite s m e => (IZR (cond_Zopp s (Zpos m)) * powerRZ 2 e)%R
  | _ => 0%R
  end.

(** The integral part of a real number, rounding toward zero. *)
Definition Rtrunc (r : R) : Z :=
  if Rle_dec 0 r then Int_part r else (- Int_part (- r))%Z.

#[export] Instance R_Scalar : Scalar R := {
  fadd := Rplus;
  fsub := Rminus;
  fmul := Rmult;
  fdiv := Rdiv;
  fneg := Ropp;
  fsqrt := sqrt;
  flit := Q2R;
  float_to_int := fun r => int_of_trunc (Some (Rtrunc r));
  of_bits := fun w => SF2R (B32.decode w)
}.

#[export] Instance R_DoubleLit : DoubleLit R := {
  dlit := Q2R
}.

#[export] Instance R_Libm : Libm R R := {
  to_double := fun r => r;
  of_double := fun r => r;
  ddiv := Rdiv;
  dcos := cos;
  dsin := sin;
  dtan := tan
}.

(** ** The mathematical objects the kernel is compared with *)

Module Spec.
Local Open Scope R_scope.

(** The rotations by the angle [a] about the first, the second and the
    third axis, acting on column vectors. *)
Definition Rx (a : R) : seMat3 R :=
  mkMat3 1 0       0
         0 (cos a) (- sin a)
         0 (sin a) (cos a).

Definition Ry (a : R) : seMat3 R :=
  mkMat3 (cos a)   0 (sin a)
         0         1 0
         (- sin a) 0 (cos a).

Definition Rz (a : R) : seMat3 R :=
  mkMat3 (cos a) (- sin a) 0
         (sin a) (cos a)   0
         0       0         1.

(** The product of two 3x3 matrices. *)
Definition mul3 (A B : seMat3 R) : seMat3 R :=
  build3 (fun r c => elem3 A r 0 * elem3 B 0 c
                     + elem3 A r 1 * elem3 B 1 c
                     + elem3 A r 2 * elem3 B 2 c).

(** The identity, the outer product of a vector with itself and the
    matrix of the cross product with a vector. *)
Definition I3 : seMat3 R :=
  build3 (fun r c => if Nat.eqb r c then 1 else 0).

Definition outer (v : seVec3 R) : seMat3 R :=
  build3 (fun r c => comp v r * comp v c).

Definition skew (v : seVec3 R) : seMat3 R :=
  mkMat3 0       (- z v) (y v)
         (z v)   0       (- x v)
         (- y v) (x v)   0.

(** Rodrigues' formula [I c + (v (x) v) (1 - c) + [v]x s], entry by
    entry. *)
Definition rodrigues (v : seVec3 R) (c s : R) : seMat3 R :=
  build3 (fun i j => elem3 I3 i j * c
                     + elem3 (outer v) i j * (1 - c)
                     + elem3 (skew v) i j * s).

Definition vzero : seVec3 R := mkVec3 0 0 0.

Definition vneg (v : seVec3 R) : seVec3 R :=
  mkVec3 (- x v) (- y v) (- z v).

(** The difference, the dot product and the cross product of two
    vectors, the Euclidean norm of a vector and the vector divided by its
    norm, written in real arithmetic. *)
Definition sub (a b : seVec3 R) : seVec3 R :=
  mkVec3 (x a - x b) (y a - y b) (z a - z b).

Definition dot (a b : seVec3 R) : R :=
  x a * x b + y a * y b + z a * z b.

Definition cross (a b : seVec3 R) : seVec3 R :=
  mkVec3 (y a * z b - z a * y b)
         (z a * x b - x a * z b)
         (x a * y b - y a * x b).

Definition norm (v : seVec3 R) : R :=
  sqrt (x v * x v + y v * y v + z v * z v).

Definition normalize (v : seVec3 R) : seVec3 R :=
  mkVec3 (x v / norm v) (y v / norm v) (z v / norm v).
End Spec.

(** ** Exact arithmetic: the interface at the reals *)

Lemma flit_R_0 : flit 0 = 0%R.
Proof. apply RMicromega.Q2R_0. Qed.

Lemma flit_R_1 : flit 1 = 1%R.
Proof. apply RMicromega.Q2R_1. Qed.

Lemma flit_R_2 : flit 2 = 2%R.
Proof. cbv [flit R_Scalar Q2R Qnum Qden]. lra. Qed.

Lemma flit_R_m1 : flit (-1) = (-1)%R.
Proof. cbv [flit R_Scalar Q2R Qnum Qden]. lra. Qed.

Lemma Rtrunc_0 : Rtrunc 0 = 0%Z.
Proof.
  unfold Rtrunc.
  destruct (Rle_dec 0 0) as [_ | n]; [| exfalso; apply n; lra].
  symmetry. apply Int_part_spec. simpl. lra.
Qed.

Lemma float_to_int_R_0 : float_to_int 0%R = 0%Z.
Proof. cbv [float_to_int R_Scalar]. rewrite Rtrunc_0. reflexivity. Qed.

Lemma of_bits_R_0 : of_bits 0%Z = 0%R.
Proof. reflexivity. Qed.

(** [seM4Fill(0)] is the zero matrix. *)
Lemma seM4Fill_R_0 :
  seM4Fill (flit 0) =
  mkMat4 0%R 0%R 0%R 0%R 0%R 0%R 0%R 0%R 0%R 0%R 0%R 0%R 0%R 0%R 0%R 0%R.
Proof.
  unfold seM4Fill. rewrite flit_R_0, float_to_int_R_0.
  change (fill_word (fill_byte 0)) with 0%Z.
  rewrite of_bits_R_0. reflexivity.
Qed.

Lemma Rtrunc_1 : Rtrunc 1 = 1%Z.
Proof.
  unfold Rtrunc.
  destruct (Rle_dec 0 1) as [_ | n]; [| exfalso; apply n; lra].
  symmetry. apply Int_part_spec. simpl. lra.
Qed.

(** In exact arithmetic too, [seM4Fill(1)] holds the number whose
    representation is 0x01010101, not 1. *)
Lemma seM4Fill_R_1 :
  let v := (8454401 / 2 ^ 148)%R in
  seM4Fill (flit 1) = mkMat4 v v v v v v v v v v v v v v v v /\ (v < 1)%R.
Proof.
  cbv zeta. split.
  - unfold seM4Fill. rewrite flit_R_1.
    cbv [float_to_int R_Scalar]. rewrite Rtrunc_1.
    change (fill_word (fill_byte (int_of_trunc (Some 1%Z)))) with 16843009%Z.
    cbv [of_bits].
    change (B32.decode 16843009) with (S754_finite false 8454401 (-148)).
    cbv [SF2R cond_Zopp powerRZ].
    replace (Pos.to_nat 148) with 148%nat by reflexivity.
    reflexivity.
  - rewrite pow_IZR. 
    change (2 ^ Z.of_nat 148)%Z with 356811923176489970264571492362373784095686656%Z.
    lra.
Qed.

Lemma seM4Identity_R :
  seM4Identity =
  mkMat4 1%R 0%R 0%R 0%R 0%R 1%R 0%R 0%R 0%R 0%R 1%R 0%R 0%R 0%R 0%R 1%R.
Proof.
  unfold seM4Identity. rewrite seM4Fill_R_0, flit_R_1. reflexivity.
Qed.

(** Unfolds the scalar interface at the reals. *)
Ltac at_R :=
  rewrite ?flit_R_0, ?flit_R_1, ?flit_R_2, ?flit_R_m1 in *;
  cbv [fadd fsub fmul fdiv fneg fsqrt flit R_Scalar
       to_double of_double ddiv dcos dsin dtan R_Libm] in *.

(** ** Equality of structures, field by field *)

Lemma seMat4_eq (F : Type)
  (a0 a1 a2 a3 a4 a5 a6 a7 a8 a9 a10 a11 a12 a13 a14 a15 : F)
  (b0 b1 b2 b3 b4 b5 b6 b7 b8 b9 b10 b11 b12 b13 b14 b15 : F) :
  a0 = b0 -> a1 = b1 -> a2 = b2 -> a3 = b3 ->
  a4 = b4 -> a5 = b5 -> a6 = b6 -> a7 = b7 ->
  a8 = b8 -> a9 = b9 -> a10 = b10 -> a11 = b11 ->
  a12 = b12 -> a13 = b13 -> a14 = b14 -> a15 = b15 ->
  mkMat4 a0 a1 a2 a3 a4 a5 a6 a7 a8 a9 a10 a11 a12 a13 a14 a15 =
  mkMat4 b0 b1 b2 b3 b4 b5 b6 b7 b8 b9 b10 b11 b12 b13 b14 b15.
Proof. intros; subst; reflexivity. Qed.

Lemma seMat3_eq (F : Type) (a0 a1 a2 a3 a4 a5 a6 a7 a8 : F)
  (b0 b1 b2 b3 b4 b5 b6 b7 b8 : F) :
  a0 = b0 -> a1 = b1 -> a2 = b2 -> a3 = b3 -> a4 = b4 ->
  a5 = b5 -> a6 = b6 -> a7 = b7 -> a8 = b8 ->
  mkMat3 a0 a1 a2 a3 a4 a5 a6 a7 a8 = mkMat3 b0 b1 b2 b3 b4 b5 b6 b7 b8.
Proof. intros; subst; reflexivity. Qed.

Lemma seVec3_eq (F : Type) (a0 a1 a2 b0 b1 b2 : F) :
  a0 = b0 -> a1 = b1 -> a2 = b2 -> mkVec3 a0 a1 a2 = mkVec3 b0 b1 b2.
Proof. intros; subst; reflexivity. Qed.

(** ** Matrix product *)

(** In exact arithmetic [seM4Multiply(seM4Identity(), M)] and
    [seM4Multiply(M, seM4Identity())] are both [M], for every [M]. *)
Theorem seM4Multiply_identity (M : seMat4 R) :
  seM4Multiply seM4Identity M = M /\ seM4Multiply M seM4Identity = M.
Proof.
  rewrite seM4Identity_R. destruct M.
  unfold seM4Multiply; cbn [e0 e1 e2 e3 e4 e5 e6 e7 e8 e9 e10 e11 e12 e13 e14 e15].
  at_R. split; apply seMat4_eq; ring.
Qed.

(** C8: the matrix product is associative: for all matrices [A], [B], [C],
    [seM4Multiply(seM4Multiply(A, B), C)] equals
    [seM4Multiply(A, seM4Multiply(B, C))] in exact arithmetic. *)
Theorem seM4Multiply_assoc (A B C : seMat4 R) :
  seM4Multiply (seM4Multiply A B) C = seM4Multiply A (seM4Multiply B C).
Proof.
  destruct A, B, C.
  unfold seM4Multiply; cbn [e0 e1 e2 e3 e4 e5 e6 e7 e8 e9 e10 e11 e12 e13 e14 e15].
  at_R. apply seMat4_eq; ring.
Qed.

Section ExactArithmetic.
Local Open Scope R_scope.

(** ** The projection matrix *)

(** C4: [seM4Perspective(angle, ratio, near, far)] takes the tangent of
    half of [angle] as it is given (radians, no conversion) and returns
    the matrix with (0,0) = (1/tan(angle/2))/ratio, (1,1) = 1/tan(angle/2),
    (2,2) = (far+near)/(near-far), (2,3) = (2 far near)/(near-far),
    (3,2) = -1 and 0 everywhere else. *)
Theorem seM4Perspective_elements (angle ratio near far : R) :
  let M := seM4Perspective angle ratio near far in
  let ct := 1 / tan (angle / 2) in
  elem M 0 0 = ct / ratio /\ elem M 0 1 = 0 /\
  elem M 0 2 = 0 /\ elem M 0 3 = 0 /\
  elem M 1 0 = 0 /\ elem M 1 1 = ct /\
  elem M 1 2 = 0 /\ elem M 1 3 = 0 /\
  elem M 2 0 = 0 /\ elem M 2 1 = 0 /\
  elem M 2 2 = (far + near) / (near - far) /\
  elem M 2 3 = (2 * far * near) / (near - far) /\
  elem M 3 0 = 0 /\ elem M 3 1 = 0 /\
  elem M 3 2 = -1 /\ elem M 3 3 = 0.
Proof.
  cbv zeta. unfold seM4Perspective. rewrite seM4Fill_R_0.
  cbv [elem get_e set_e Nat.mul Nat.add
       e0 e1 e2 e3 e4 e5 e6 e7 e8 e9 e10 e11 e12 e13 e14 e15].
  at_R. repeat split.
Qed.

(** ** Rotations *)

(** The constant of [SE_PI] and the factor of [seM4RotateAA] are the
    number pi and pi/180 to ten decimal places. *)
Lemma PI_bounds : 3.14159265 < PI < 3.14159266.
Proof.
  pose proof (PI_2_3_7_ineq 4) as H.
  unfold PI_2_3_7_tg, tg_alt, Ratan_seq in H.
  cbn [sum_f_R0 Nat.mul Nat.add pow INR] in H.
  lra.
Qed.

Lemma SE_DEG2RAD_R (d : R) :
  SE_DEG2RAD d = d * (Q2R 3.14159265358979323846 / 180).
Proof.
  unfold SE_DEG2RAD, SE_PI. cbv [fmul fdiv flit R_Scalar].
  replace (Q2R 180) with 180 by (cbv [Q2R Qnum Qden]; lra).
  reflexivity.
Qed.

(** C2: for angles [ax], [ay], [az] in degrees, the upper-left block of
    [seM4RotateEuler(ax, ay, az)] is the product Rx Ry Rz of the
    rotations about the three axes by the angles converted to radians:
    each angle is multiplied by 3.14159265358979323846 / 180, which is
    pi/180 to ten decimal places (so that, on a column vector, the
    rotation about z acts first, then y, then x); the fourth column is
    (0, 0, 0) and the bottom row is (0, 0, 0, 1). *)
Theorem seM4RotateEuler_product (ax ay az : R) :
  let rad := fun d : R => d * (Q2R 3.14159265358979323846 / 180) in
  let M := seM4RotateEuler ax ay az in
  let rx := Spec.Rx (rad ax) in
  let ry := Spec.Ry (rad ay) in
  let rz := Spec.Rz (rad az) in
  upper3 M = Spec.mul3 rx (Spec.mul3 ry rz) /\
  (forall v, seV3MultiplyM3 (upper3 M) v =
             seV3MultiplyM3 rx (seV3MultiplyM3 ry (seV3MultiplyM3 rz v))) /\
  column4 M = Spec.vzero /\
  bottom_row M = (0, 0, 0, 1) /\
  Rabs (rad 1 - PI / 180) < 1 / 10 ^ 10.
Proof.
  cbv zeta. unfold seM4RotateEuler, Spec.vzero.
  rewrite !SE_DEG2RAD_R.
  cbv [upper3 column4 bottom_row elem get_e Nat.mul Nat.add
       e0 e1 e2 e3 e4 e5 e6 e7 e8 e9 e10 e11 e12 e13 e14 e15].
  at_R.
  set (a := ax * (Q2R 3.14159265358979323846 / 180)).
  set (b := ay * (Q2R 3.14159265358979323846 / 180)).
  set (c := az * (Q2R 3.14159265358979323846 / 180)).
  split; [| split; [| split; [reflexivity | split; [reflexivity |]]]].
  - cbv [Spec.mul3 Spec.Rx Spec.Ry Spec.Rz build3 elem3 Nat.mul Nat.add
         e0' e1' e2' e3' e4' e5' e6' e7' e8'].
    apply seMat3_eq; ring.
  - intros [vx vy vz].
    cbv [seV3MultiplyM3 Spec.Rx Spec.Ry Spec.Rz x y z
         e0' e1' e2' e3' e4' e5' e6' e7' e8'].
    at_R. apply seVec3_eq; ring.
  - pose proof PI_bounds as Hpi. cbv [Q2R Qnum Qden].
    apply Rabs_def1; lra.
Qed.

(** The vector functions of the kernel are those of real arithmetic. *)
Lemma seV3_spec (a b : seVec3 R) :
  seV3Subtract a b = Spec.sub a b /\
  seV3Dot a b = Spec.dot a b /\
  seV3Cross a b = Spec.cross a b /\
  seV3Length a = Spec.norm a /\
  seV3Normalize a = Spec.normalize a.
Proof. repeat split. Qed.

(** C5: [seM4RotateAA(v, t)] normalizes the axis [v] (divides it by its
    Euclidean norm), multiplies the angle [t] (degrees) by the
    degree-to-radian factor 0.01745329251, which is pi/180 to ten
    decimal places, and returns the matrix whose upper-left block is
    Rodrigues' matrix I c + (n (x) n) (1 - c) + [n]x s of the normalized
    axis [n], with [c] and [s] the cosine and the sine of the converted
    angle; the fourth column is (0, 0, 0) and the bottom row is
    (0, 0, 0, 1). *)
Theorem seM4RotateAA_rodrigues (v : seVec3 R) (t : R) :
  let M := seM4RotateAA v t in
  let len := sqrt (x v * x v + y v * y v + z v * z v) in
  let n := mkVec3 (x v / len) (y v / len) (z v / len) in
  let a := t * Q2R 0.01745329251 in
  upper3 M = Spec.rodrigues n (cos a) (sin a) /\
  column4 M = Spec.vzero /\
  bottom_row M = (0, 0, 0, 1) /\
  Rabs (Q2R 0.01745329251 - PI / 180) < 1 / 10 ^ 10.
Proof.
  cbv zeta. unfold seM4RotateAA, Spec.vzero. cbv zeta.
  destruct (seV3_spec v v) as (_ & _ & _ & _ & ->).
  unfold Spec.normalize, Spec.norm.
  set (len := sqrt (x v * x v + y v * y v + z v * z v)).
  cbv [upper3 column4 bottom_row elem get_e Nat.mul Nat.add x y z
       e0 e1 e2 e3 e4 e5 e6 e7 e8 e9 e10 e11 e12 e13 e14 e15].
  at_R.
  set (a := t * Q2R 0.01745329251).
  split; [| split; [reflexivity | split; [reflexivity |]]].
  - cbv [Spec.rodrigues Spec.I3 Spec.outer Spec.skew build3 elem3 comp
         Nat.mul Nat.add Nat.eqb x y z e0' e1' e2' e3' e4' e5' e6' e7' e8'].
    apply seMat3_eq; ring.
  - pose proof PI_bounds as Hpi. cbv [Q2R Qnum Qden].
    apply Rabs_def1; lra.
Qed.

(** ** The view matrix *)

(** C3: [seM4LookAt(eye, center, up)] computes
    front = normalize(center - eye), side = normalize(cross(front, up))
    and trueUp = cross(side, front), with the difference, the cross
    product and the division by the Euclidean norm of real arithmetic;
    the rows of the upper-left block are side, trueUp and -front; the
    entries of index 3, 7 and 11 are -dot(side, eye), -dot(trueUp, eye)
    and +dot(front, eye); the bottom row is (0, 0, 0, 1). *)
Theorem seM4LookAt_layout (eye center up : seVec3 R) :
  let front := Spec.normalize (Spec.sub center eye) in
  let side := Spec.normalize (Spec.cross front up) in
  let trueUp := Spec.cross side front in
  let M := seM4LookAt eye center up in
  row3 M 0 = side /\
  row3 M 1 = trueUp /\
  row3 M 2 = Spec.vneg front /\
  get_e M 3 = - Spec.dot side eye /\
  get_e M 7 = - Spec.dot trueUp eye /\
  get_e M 11 = Spec.dot front eye /\
  bottom_row M = (0, 0, 0, 1).
Proof.
  cbv zeta. unfold seM4LookAt. cbv zeta.
  cbv [row3 bottom_row elem get_e Nat.mul Nat.add
       e0 e1 e2 e3 e4 e5 e6 e7 e8 e9 e10 e11 e12 e13 e14 e15].
  rewrite flit_R_0, flit_R_1.
  cbv [seV3Normalize seV3Subtract seV3Cross seV3Dot seV3Length SE_SQUARED
       Spec.normalize Spec.sub Spec.cross Spec.dot Spec.norm Spec.vneg
       x y z fadd fsub fmul fdiv fneg fsqrt R_Scalar].
  repeat split.
Qed.

(** ** Orthonormality of the view frame *)

Lemma seV3Length_dot (v : seVec3 R) : seV3Length v = sqrt (seV3Dot v v).
Proof. reflexivity. Qed.

Lemma seV3Dot_self_nonneg (v : seVec3 R) : 0 <= seV3Dot v v.
Proof.
  destruct v as [a b c]. cbv [seV3Dot x y z]. at_R.
  pose proof (Rle_0_sqr a). pose proof (Rle_0_sqr b).
  pose proof (Rle_0_sqr c). unfold Rsqr in *. lra.
Qed.

Lemma seV3Dot_self_pos (v : seVec3 R) :
  v <> Spec.vzero -> 0 < seV3Dot v v.
Proof.
  intros Hv. destruct (seV3Dot_self_nonneg v) as [Hlt | Heq]; [exact Hlt |].
  exfalso. apply Hv. destruct v as [a b c].
  cbv [seV3Dot x y z] in Heq. at_R.
  pose proof (Rle_0_sqr a) as Ha. pose proof (Rle_0_sqr b) as Hb.
  pose proof (Rle_0_sqr c) as Hc. unfold Rsqr in *.
  assert (a * a = 0) as Ea by lra.
  assert (b * b = 0) as Eb by lra.
  assert (c * c = 0) as Ec by lra.
  apply Rsqr_0_uniq in Ea, Eb, Ec. subst. reflexivity.
Qed.

Lemma seV3Length_pos (v : seVec3 R) :
  v <> Spec.vzero -> 0 < seV3Length v.
Proof.
  intros Hv. rewrite seV3Length_dot.
  apply sqrt_lt_R0, seV3Dot_self_pos, Hv.
Qed.

Lemma seV3Length_sqr (v : seVec3 R) :
  seV3Length v * seV3Length v = seV3Dot v v.
Proof.
  rewrite seV3Length_dot. apply sqrt_sqrt, seV3Dot_self_nonneg.
Qed.

(** Dot products with a normalized vector. *)
Lemma seV3Dot_normalize_l (v w : seVec3 R) :
  seV3Dot (seV3Normalize v) w = seV3Dot v w / seV3Length v.
Proof.
  unfold seV3Normalize. set (len := seV3Length v).
  destruct v as [a b c], w as [a' b' c']. cbv [seV3Dot x y z]. at_R.
  unfold Rdiv. ring.
Qed.

Lemma seV3Dot_comm (v w : seVec3 R) : seV3Dot v w = seV3Dot w v.
Proof.
  destruct v as [a b c], w as [a' b' c']. cbv [seV3Dot x y z]. at_R. ring.
Qed.

Lemma seV3Normalize_unit (v : seVec3 R) :
  v <> Spec.vzero -> seV3Dot (seV3Normalize v) (seV3Normalize v) = 1.
Proof.
  intros Hv. pose proof (seV3Length_pos Hv) as Hlen.
  rewrite seV3Dot_normalize_l, seV3Dot_comm, seV3Dot_normalize_l.
  rewrite <- seV3Length_sqr. field. lra.
Qed.

(** The cross product is orthogonal to both of its arguments. *)
Lemma seV3Cross_dot_l (v w : seVec3 R) : seV3Dot (seV3Cross v w) v = 0.
Proof.
  destruct v as [a b c], w as [a' b' c'].
  cbv [seV3Dot seV3Cross x y z]. at_R. ring.
Qed.

Lemma seV3Cross_dot_r (v w : seVec3 R) : seV3Dot (seV3Cross v w) w = 0.
Proof.
  destruct v as [a b c], w as [a' b' c'].
  cbv [seV3Dot seV3Cross x y z]. at_R. ring.
Qed.

(** Lagrange's identity. *)
Lemma seV3Cross_dot_self (v w : seVec3 R) :
  seV3Dot (seV3Cross v w) (seV3Cross v w) =
  seV3Dot v v * seV3Dot w w - seV3Dot v w * seV3Dot v w.
Proof.
  destruct v as [a b c], w as [a' b' c'].
  cbv [seV3Dot seV3Cross x y z]. at_R. ring.
Qed.

Lemma seV3Dot_vneg_r (v w : seVec3 R) :
  seV3Dot v (Spec.vneg w) = - seV3Dot v w.
Proof.
  destruct v as [a b c], w as [a' b' c'].
  cbv [seV3Dot Spec.vneg x y z]. at_R. ring.
Qed.

Lemma seV3Dot_vneg_self (v : seVec3 R) :
  seV3Dot (Spec.vneg v) (Spec.vneg v) = seV3Dot v v.
Proof.
  destruct v as [a b c]. cbv [seV3Dot Spec.vneg x y z]. at_R. ring.
Qed.

(** The three rows of the upper-left block of the view matrix. *)
Lemma seM4LookAt_rows (eye center up : seVec3 R) :
  let f := seV3Normalize (seV3Subtract center eye) in
  let s := seV3Normalize (seV3Cross f up) in
  let M := seM4LookAt eye center up in
  row3 M 0 = s /\ row3 M 1 = seV3Cross s f /\ row3 M 2 = Spec.vneg f.
Proof. cbv zeta. repeat split. Qed.

(** C10: when [center - eye] is not the zero vector and
    cross(normalize(center - eye), up) is not the zero vector, the rows
    side, trueUp and -front of the upper-left block of
    [seM4LookAt(eye, center, up)] are pairwise orthogonal, and each has
    length 1, in exact arithmetic. *)
Theorem seM4LookAt_orthonormal (eye center up : seVec3 R) :
  seV3Subtract center eye <> Spec.vzero ->
  seV3Cross (seV3Normalize (seV3Subtract center eye)) up <> Spec.vzero ->
  let M := seM4LookAt eye center up in
  seV3Dot (row3 M 0) (row3 M 1) = 0 /\
  seV3Dot (row3 M 0) (row3 M 2) = 0 /\
  seV3Dot (row3 M 1) (row3 M 2) = 0 /\
  seV3Length (row3 M 0) = 1 /\
  seV3Length (row3 M 1) = 1 /\
  seV3Length (row3 M 2) = 1.
Proof.
  intros Hd Hw M. subst M.
  destruct (seM4LookAt_rows eye center up) as (-> & -> & ->).
  set (f := seV3Normalize (seV3Subtract center eye)) in *.
  set (s := seV3Normalize (seV3Cross f up)).
  assert (Hff : seV3Dot f f = 1) by (apply seV3Normalize_unit, Hd).
  assert (Hss : seV3Dot s s = 1) by (apply seV3Normalize_unit, Hw).
  assert (Hsf : seV3Dot s f = 0).
  { unfold s. rewrite seV3Dot_normalize_l, seV3Cross_dot_l.
    unfold Rdiv. ring. }
  assert (Huu : seV3Dot (seV3Cross s f) (seV3Cross s f) = 1).
  { rewrite seV3Cross_dot_self, Hff, Hss, Hsf. ring. }
  repeat split.
  - rewrite seV3Dot_comm. apply seV3Cross_dot_l.
  - rewrite seV3Dot_vneg_r, Hsf. ring.
  - rewrite seV3Dot_vneg_r, seV3Cross_dot_r. ring.
  - rewrite seV3Length_dot, Hss. apply sqrt_1.
  - rewrite seV3Length_dot, Huu. apply sqrt_1.
  - rewrite seV3Length_dot, seV3Dot_vneg_self, Hff. apply sqrt_1.
Qed.
(** The theorem at eye = (0,0,0), center = (0,0,1), up = (0,1,0). *)
Lemma seM4LookAt_orthonormal_witness :
  let eye := mkVec3 0 0 0 in
  let center := mkVec3 0 0 1 in
  let up := mkVec3 0 1 0 in
  let M := seM4LookAt eye center up in
  seV3Subtract center eye <> Spec.vzero /\
  seV3Cross (seV3Normalize (seV3Subtract center eye)) up <> Spec.vzero /\
  seV3Dot (row3 M 0) (row3 M 1) = 0 /\
  seV3Dot (row3 M 0) (row3 M 2) = 0 /\
  seV3Dot (row3 M 1) (row3 M 2) = 0 /\
  seV3Length (row3 M 0) = 1 /\
  seV3Length (row3 M 1) = 1 /\
  seV3Length (row3 M 2) = 1.
Proof.
  intros eye center up M.
  assert (Hd : seV3Subtract center eye <> Spec.vzero).
  { intros H. apply (f_equal (@z R)) in H.
    cbv [seV3Subtract Spec.vzero center eye x y z] in H. at_R. lra. }
  assert (Hw : seV3Cross (seV3Normalize (seV3Subtract center eye)) up
               <> Spec.vzero).
  { pose proof (seV3Length_pos Hd) as Hlen.
    intros H. apply (f_equal (@x R)) in H.
    unfold seV3Normalize in H.
    set (len := seV3Length (seV3Subtract center eye)) in *.
    cbv [seV3Cross seV3Subtract Spec.vzero center eye up x y z] in H.
    at_R.
    assert (Hinv : 0 < / len) by (apply Rinv_0_lt_compat, Hlen).
    unfold Rdiv in H. lra. }
  split; [exact Hd | split; [exact Hw |]].
  exact (seM4LookAt_orthonormal Hd Hw).
Defined.

(** ** The vector entry point of the Euler rotation *)

Lemma seM4RotateEulerV3_linked (rot : R -> R -> R -> seMat4 R) :
  (forall ax ay az, rot ax ay az = seM4RotateEuler ax ay az) ->
  forall v : seVec3 R,
    seM4RotateEulerV3 rot v = seM4RotateEuler (x v) (y v) (z v).
Proof. intros Hrot v. unfold seM4RotateEulerV3. apply Hrot. Qed.

(** C9: [seM4RotateEulerV3(v)] returns whatever [seM4Rotate] returns on
    the components of [v], and the header leaves [seM4Rotate] undefined:
    there is a function of the declared type with which the result at
    v = (0,0,0) is not [seM4RotateEuler(0, 0, 0)]. *)
Theorem seM4RotateEulerV3_callee :
  (forall rot (v : seVec3 R),
      seM4RotateEulerV3 rot v = rot (x v) (y v) (z v)) /\
  exists rot : R -> R -> R -> seMat4 R,
    seM4RotateEulerV3 rot Spec.vzero <> seM4RotateEuler 0 0 0.
Proof.
  split; [reflexivity |].
  exists (fun _ _ _ => seM4Fill (flit 0)).
  unfold seM4RotateEulerV3. rewrite seM4Fill_R_0.
  intros H. apply (f_equal (@e15 R)) in H.
  cbv [seM4RotateEuler e15] in H. at_R. lra.
Qed.
End ExactArithmetic.

(** ** Binary32: representations and degenerate inputs *)

(** [seM4Fill(0)] is the matrix of positive zeros. *)
Lemma seM4Fill_b32_0 :
  let o := S754_zero false in
  seM4Fill (f32 0) = mkMat4 o o o o o o o o o o o o o o o o.
Proof. reflexivity. Qed.

(** C1: [seM4Fill(1.0f)] does not hold sixteen copies of 1: [memset]
    stores the byte 1 sixty-four times, and every element is the number
    whose representation is 0x01010101, that is 8454401 * 2^-148. *)
Theorem seM4Fill_b32_1 :
  let v := S754_finite false 8454401 (-148) in
  seM4Fill (f32 1) = mkMat4 v v v v v v v v v v v v v v v v /\
  f32 1 = S754_finite false 8388608 (-23) /\
  SFeqb v (f32 1) = false.
Proof. vm_compute. repeat split. Qed.



(** The projection matrix in binary32, with the tangent of the C library
    taken as given: the same six entries as in exact arithmetic. *)
Section B32Libm.
Variables cos64 sin64 tan64 : spec_float -> spec_float.
Local Open Scope scalar_scope.

Lemma seM4Perspective_b32 (angle ratio near far : spec_float) :
  let ct := round_to B32.prec B32.emax
              (SFdiv 53 1024 (round_to 53 1024 (f32 1))
                 (tan64 (round_to 53 1024 (angle / f32 2)))) in
  let o := S754_zero false in
  seM4Perspective (LM := b64_Libm cos64 sin64 tan64) angle ratio near far =
  mkMat4 (ct / ratio) o o o
         o ct o o
         o o ((far + near) / (near - far)) ((f32 2 * far * near) / (near - far))
         o o (f32 (-1)) o.
Proof. reflexivity. Qed.
End B32Libm.

(** The view matrix in binary32: the same layout as in exact arithmetic,
    with the operations of binary32 in the place of those of the reals. *)
Lemma seM4LookAt_b32_layout (eye center up : seVec3 spec_float) :
  let add := SFadd B32.prec B32.emax in
  let sub := SFsub B32.prec B32.emax in
  let mul := SFmul B32.prec B32.emax in
  let div := SFdiv B32.prec B32.emax in
  let vsub := fun a b : seVec3 spec_float =>
    mkVec3 (sub (x a) (x b)) (sub (y a) (y b)) (sub (z a) (z b)) in
  let dot := fun a b : seVec3 spec_float =>
    add (add (mul (x a) (x b)) (mul (y a) (y b))) (mul (z a) (z b)) in
  let cross := fun a b : seVec3 spec_float =>
    mkVec3 (sub (mul (y a) (z b)) (mul (z a) (y b)))
           (sub (mul (z a) (x b)) (mul (x a) (z b)))
           (sub (mul (x a) (y b)) (mul (y a) (x b))) in
  let normalize := fun v : seVec3 spec_float =>
    let len := SFsqrt B32.prec B32.emax (dot v v) in
    mkVec3 (div (x v) len) (div (y v) len) (div (z v) len) in
  let front := normalize (vsub center eye) in
  let side := normalize (cross front up) in
  let trueUp := cross side front in
  seM4LookAt eye center up =
  mkMat4 (x side) (y side) (z side) (SFopp (dot side eye))
         (x trueUp) (y trueUp) (z trueUp) (SFopp (dot trueUp eye))
         (SFopp (x front)) (SFopp (y front)) (SFopp (z front)) (dot front eye)
         (f32 0) (f32 0) (f32 0) (f32 1).
Proof. reflexivity. Qed.

(** Some values, computed. *)
Example seV3Normalize_b32_3_0_4 :
  seV3Normalize (mkVec3 (f32 3) (f32 0) (f32 4)) =
  mkVec3 (f32 0.6) (f32 0) (f32 0.8).
Proof. reflexivity. Qed.

Example seM4LookAt_b32_test :
  let M := seM4LookAt (mkVec3 (f32 0) (f32 0) (f32 5))
                      (mkVec3 (f32 0) (f32 0) (f32 0))
                      (mkVec3 (f32 0) (f32 1) (f32 0)) in
  seMat4_eqb M
    (mkMat4 (f32 1) (f32 0) (f32 0) (f32 0)
            (f32 0) (f32 1) (f32 0) (f32 0)
            (f32 0) (f32 0) (f32 1) (f32 (-5))
            (f32 0) (f32 0) (f32 0) (f32 1)) = true.
Proof. reflexivity. Qed.

(** A nonzero argument that [seM4Fill] does reproduce: the low byte of
    51015 is 0x47, and 0x47474747 represents 51015.27734375. *)
Example seM4Fill_b32_fixed_point :
  let n := f32 51015.27734375 in
  seM4Fill n = mkMat4 n n n n n n n n n n n n n n n n.
Proof. reflexivity. Qed.

(** ** Binary32: the product with the identity *)

(** Multiplying by 1 is exact: the product of the mantissas is shifted
    back by the twenty-three places the mantissa of 1 adds. *)
Lemma digits2_pos_shift23 (m : positive) :
  Zpos (digits2_pos (8388608 * m)) = (Zpos (digits2_pos m) + 23)%Z.
Proof.
  change (8388608 * m)%positive with
    (m~0~0~0~0~0~0~0~0~0~0~0~0~0~0~0~0~0~0~0~0~0~0~0)%positive.
  cbn [digits2_pos]. lia.
Qed.

Lemma shr_23_exact (m : positive) (e : Z) :
  shr (shr_record_of_loc (Zpos (8388608 * m)) loc_Exact) e 23 =
  (Build_shr_record (Zpos m) false false, (e + 23)%Z).
Proof.
  change (8388608 * m)%positive with
    (m~0~0~0~0~0~0~0~0~0~0~0~0~0~0~0~0~0~0~0~0~0~0~0)%positive.
  reflexivity.
Qed.

Lemma SFmul_b32_one_l (s : bool) (m : positive) (e : Z) :
  bounded B32.prec B32.emax m e = true ->
  SFmul B32.prec B32.emax (f32 1) (S754_finite s m e) = S754_finite s m e.
Proof.
  intros Hb. unfold bounded, canonical_mantissa in Hb.
  apply andb_prop in Hb. destruct Hb as [Hc He].
  apply Z.eqb_eq in Hc.
  change (f32 1) with (S754_finite false 8388608 (-23)).
  unfold SFmul. cbn [xorb].
  unfold binary_round_aux, shr_fexp.
  unfold Zdigits2 at 1. rewrite digits2_pos_shift23.
  replace (Z.pos (digits2_pos m) + 23 + (-23 + e))%Z
    with (Z.pos (digits2_pos m) + e)%Z by lia.
  rewrite Hc.
  replace (e - (-23 + e))%Z with 23%Z by lia.
  rewrite shr_23_exact.
  cbn [shr_m loc_of_shr_record round_nearest_even shr_record_of_loc Zdigits2].
  replace (-23 + e + 23)%Z with e by lia.
  rewrite Hc, Z.sub_diag. cbn [shr shr_m].
  rewrite He. reflexivity.
Qed.

Lemma SFmul_b32_one_r (s : bool) (m : positive) (e : Z) :
  bounded B32.prec B32.emax m e = true ->
  SFmul B32.prec B32.emax (S754_finite s m e) (f32 1) = S754_finite s m e.
Proof.
  intros Hb. rewrite <- (SFmul_b32_one_l s m e Hb) at 2.
  change (f32 1) with (S754_finite false 8388608 (-23)).
  unfold SFmul. rewrite Pos.mul_comm, Z.add_comm, xorb_comm. reflexivity.
Qed.

Lemma same32_eqb (u a : spec_float) :
  ok32 a = true -> same32 u a -> SFeqb u a = true.
Proof.
  intros Ha [-> | [Hu Hz]].
  - destruct a as [s | s | | s m e]; try discriminate Ha.
    + reflexivity.
    + unfold SFeqb, SFcompare.
      rewrite Z.compare_refl, Pos.compare_cont_refl. destruct s; reflexivity.
  - destruct u; try discriminate Hu. destruct a; try discriminate Hz.
    reflexivity.
Qed.

Lemma same32_mul_one_l (a : spec_float) :
  ok32 a = true -> same32 (SFmul B32.prec B32.emax (f32 1) a) a.
Proof.
  intros Ha. left. destruct a as [s | s | | s m e]; try discriminate Ha.
  - reflexivity.
  - apply SFmul_b32_one_l, Ha.
Qed.

Lemma same32_mul_one_r (a : spec_float) :
  ok32 a = true -> same32 (SFmul B32.prec B32.emax a (f32 1)) a.
Proof.
  intros Ha. left. destruct a as [s | s | | s m e]; try discriminate Ha.
  - destruct s; reflexivity.
  - apply SFmul_b32_one_r, Ha.
Qed.

Lemma is_zero_mul_l (b : spec_float) :
  ok32 b = true -> is_zero (SFmul B32.prec B32.emax (f32 0) b) = true.
Proof. intros Hb. destruct b; try discriminate Hb; reflexivity. Qed.

Lemma is_zero_mul_r (b : spec_float) :
  ok32 b = true -> is_zero (SFmul B32.prec B32.emax b (f32 0)) = true.
Proof. intros Hb. destruct b; try discriminate Hb; reflexivity. Qed.

Lemma same32_add_zero_r (u a o : spec_float) :
  is_zero o = true -> ok32 a = true -> same32 u a ->
  same32 (SFadd B32.prec B32.emax u o) a.
Proof.
  intros Ho Ha [-> | [Hu Hz]]; destruct o as [t | | |]; try discriminate Ho.
  - destruct a as [s | s | | s m e]; try discriminate Ha.
    + right. destruct s, t; split; reflexivity.
    + left. reflexivity.
  - right. destruct u as [s | | |]; try discriminate Hu.
    split; [destruct s, t; reflexivity | exact Hz].
Qed.

Lemma same32_add_zero_l (u a o : spec_float) :
  is_zero o = true -> ok32 a = true -> same32 u a ->
  same32 (SFadd B32.prec B32.emax o u) a.
Proof.
  intros Ho Ha [-> | [Hu Hz]]; destruct o as [t | | |]; try discriminate Ho.
  - destruct a as [s | s | | s m e]; try discriminate Ha.
    + right. destruct s, t; split; reflexivity.
    + left. reflexivity.
  - right. destruct u as [s | | |]; try discriminate Hu.
    split; [destruct s, t; reflexivity | exact Hz].
Qed.

Lemma is_zero_add (o o' : spec_float) :
  is_zero o = true -> is_zero o' = true ->
  is_zero (SFadd B32.prec B32.emax o o') = true.
Proof.
  intros Ho Ho'. destruct o as [s | | |]; try discriminate Ho.
  destruct o' as [t | | |]; try discriminate Ho'. destruct s, t; reflexivity.
Qed.

Lemma seM4Identity_b32 :
  seM4Identity =
  mkMat4 (f32 1) (f32 0) (f32 0) (f32 0) (f32 0) (f32 1) (f32 0) (f32 0)
         (f32 0) (f32 0) (f32 1) (f32 0) (f32 0) (f32 0) (f32 0) (f32 1).
Proof. reflexivity. Qed.

Ltac zero32 :=
  lazymatch goal with
  | |- is_zero (SFadd _ _ _ _) = true => apply is_zero_add; zero32
  | |- is_zero (SFmul _ _ (f32 0) _) = true => apply is_zero_mul_l; assumption
  | |- is_zero (SFmul _ _ _ (f32 0)) = true => apply is_zero_mul_r; assumption
  end.

Ltac same32_sum :=
  match goal with
  | |- same32 (SFmul _ _ (f32 1) _) _ => apply same32_mul_one_l; assumption
  | |- same32 (SFmul _ _ _ (f32 1)) _ => apply same32_mul_one_r; assumption
  | |- same32 (SFadd _ _ _ _) _ =>
      apply same32_add_zero_r; [zero32 | assumption | same32_sum]
  | |- same32 (SFadd _ _ _ _) _ =>
      apply same32_add_zero_l; [zero32 | assumption | same32_sum]
  end.

(** C6: for every matrix [M] of binary32 numbers (zeros and finite
    numbers: no infinity, no NaN), every element of
    [seM4Multiply(seM4Identity(), M)] and of
    [seM4Multiply(M, seM4Identity())] is the element of [M] at its place,
    or a zero where [M] holds a zero; both products compare equal to [M],
    element by element. *)
Theorem seM4Multiply_identity_numbers (M : seMat4 spec_float) :
  all_e ok32 M = true ->
  seMat4_same (seM4Multiply seM4Identity M) M /\
  seMat4_same (seM4Multiply M seM4Identity) M /\
  seMat4_eqb (seM4Multiply seM4Identity M) M = true /\
  seMat4_eqb (seM4Multiply M seM4Identity) M = true.
Proof.
  intros HM. rewrite seM4Identity_b32. destruct M.
  cbv [all_e e0 e1 e2 e3 e4 e5 e6 e7 e8 e9 e10 e11 e12 e13 e14 e15] in HM.
  repeat (apply andb_prop in HM; destruct HM as [HM ?]).
  cbv [seMat4_same seMat4_eqb seM4Multiply fadd fmul b32_Scalar
       e0 e1 e2 e3 e4 e5 e6 e7 e8 e9 e10 e11 e12 e13 e14 e15].
  split; [repeat split; same32_sum |].
  split; [repeat split; same32_sum |].
  split; repeat (apply andb_true_intro; split);
    (apply same32_eqb; [assumption | same32_sum]).
Qed.

(** The theorem at a matrix with a negative zero, a subnormal number and
    the largest finite number among its elements. *)
Lemma seM4Multiply_identity_numbers_witness :
  let M := mkMat4 (f32 1) (f32 (-2)) (f32 0.1) (S754_zero true)
                  (f32 0) (f32 3) (f32 1e-40) (f32 (-7))
                  (f32 5) (f32 0) (f32 1) (f32 1e30)
                  (SFmax_float B32.prec B32.emax) (f32 0) (f32 0) (f32 1) in
  all_e ok32 M = true /\
  seMat4_same (seM4Multiply seM4Identity M) M /\
  seMat4_same (seM4Multiply M seM4Identity) M /\
  seMat4_eqb (seM4Multiply seM4Identity M) M = true /\
  seMat4_eqb (seM4Multiply M seM4Identity) M = true.
Proof.
  intros M. assert (H : all_e ok32 M = true) by reflexivity.
  split; [exact H | exact (seM4Multiply_identity_numbers M H)].
Defined.

(** With an infinity among the elements of [M] the products are not [M]:
    0 times the infinity is NaN, and the NaN lands where [M] holds 0. *)
Lemma seM4Multiply_identity_counterexample :
  let o := f32 0 in
  let M := mkMat4 (S754_infinity false) o o o o o o o o o o o o o o o in
  seM4Multiply seM4Identity M <> M /\
  seM4Multiply M seM4Identity <> M /\
  seMat4_eqb (seM4Multiply seM4Identity M) M = false /\
  seMat4_eqb (seM4Multiply M seM4Identity) M = false.
Proof.
  cbv zeta. split; [| split; [| split; reflexivity]].
  - intros H. apply (f_equal (@e4 spec_float)) in H. discriminate H.
  - intros H. apply (f_equal (@e1 spec_float)) in H. discriminate H.
Qed.

(** X30: in binary32 the product of the identity with a matrix of numbers
    (no infinity, no NaN), on either side, compares equal to the matrix,
    element by element: each sum is the element itself, or a zero where
    the element is a zero. *)
Lemma seM4Multiply_identity_b32 (M : seMat4 spec_float) :
  all_e ok32 M = true ->
  seMat4_eqb (seM4Multiply seM4Identity M) M = true /\
  seMat4_eqb (seM4Multiply M seM4Identity) M = true.
Proof.
  intros HM. rewrite seM4Identity_b32. destruct M.
  cbv [all_e e0 e1 e2 e3 e4 e5 e6 e7 e8 e9 e10 e11 e12 e13 e14 e15] in HM.
  repeat (apply andb_prop in HM; destruct HM as [HM ?]).
  cbv [seMat4_eqb seM4Multiply fadd fmul b32_Scalar
       e0 e1 e2 e3 e4 e5 e6 e7 e8 e9 e10 e11 e12 e13 e14 e15].
  split; repeat (apply andb_true_intro; split);
    (apply same32_eqb; [assumption | same32_sum]).
Qed.

(** The same at a translation matrix. *)
Lemma seM4Multiply_identity_b32_witness :
  let M := seM4Translate (f32 1) (f32 (-2)) (f32 0.1) in
  all_e ok32 M = true /\
  seMat4_eqb (seM4Multiply seM4Identity M) M = true /\
  seMat4_eqb (seM4Multiply M seM4Identity) M = true.
Proof.
  intros M. assert (H : all_e ok32 M = true) by reflexivity.
  split; [exact H | exact (seM4Multiply_identity_b32 M H)].
Defined.

(** A NaN in the matrix spreads to the elements of its column. *)
Example seM4Multiply_identity_b32_nan :
  let o := f32 0 in
  let M := mkMat4 S754_nan o o o o o o o o o o o o o o o in
  e4 (seM4Multiply seM4Identity M) = S754_nan /\ e4 M = S754_zero false.
Proof. vm_compute. split; reflexivity. Qed.

(** * Further properties of the kernel *)

(** Unfolds the operations on vectors given by their components. *)
Ltac vec_R :=
  cbv [seV3Dot seV3Cross seV3Add seV3Subtract seV3MultiplyM3 Spec.vneg
       Spec.vzero x y z e0' e1' e2' e3' e4' e5' e6' e7' e8']; at_R.

Section VectorAlgebra.
Local Open Scope R_scope.

(** X1: the cross product is anti-commutative, and the cross product of
    a vector with itself is the zero vector. *)
Theorem seV3Cross_anticomm (a b : seVec3 R) :
  seV3Cross a b = Spec.vneg (seV3Cross b a) /\
  seV3Cross a a = Spec.vzero.
Proof.
  destruct a as [a1 a2 a3], b as [b1 b2 b3].
  split; vec_R; apply seVec3_eq; ring.
Qed.

(** X2: the cross product of two vectors is orthogonal to both. *)
Theorem seV3Cross_orthogonal (a b : seVec3 R) :
  seV3Dot (seV3Cross a b) a = 0 /\ seV3Dot (seV3Cross a b) b = 0.
Proof. split; [apply seV3Cross_dot_l | apply seV3Cross_dot_r]. Qed.

(** X3: Lagrange's identity on lengths:
    |a x b|^2 + (a . b)^2 = (|a| |b|)^2. *)
Theorem seV3Cross_length (a b : seVec3 R) :
  seV3Length (seV3Cross a b) ^ 2 + seV3Dot a b ^ 2 =
  (seV3Length a * seV3Length b) ^ 2.
Proof.
  pose proof (seV3Length_sqr (seV3Cross a b)) as Hc.
  pose proof (seV3Length_sqr a) as Ha.
  pose proof (seV3Length_sqr b) as Hb.
  rewrite seV3Cross_dot_self in Hc.
  replace (seV3Length (seV3Cross a b) ^ 2)
    with (seV3Length (seV3Cross a b) * seV3Length (seV3Cross a b)) by ring.
  replace ((seV3Length a * seV3Length b) ^ 2)
    with ((seV3Length a * seV3Length a) * (seV3Length b * seV3Length b))
    by ring.
  rewrite Hc, Ha, Hb. ring.
Qed.

Lemma seV3Length_nonneg (v : seVec3 R) : 0 <= seV3Length v.
Proof. rewrite seV3Length_dot. apply sqrt_pos. Qed.

(** X4: the Cauchy-Schwarz inequality: |a . b| <= |a| |b|. *)
Theorem seV3Dot_cauchy_schwarz (a b : seVec3 R) :
  Rabs (seV3Dot a b) <= seV3Length a * seV3Length b.
Proof.
  pose proof (seV3Length_sqr a) as Ha.
  pose proof (seV3Length_sqr b) as Hb.
  pose proof (seV3Dot_self_nonneg (seV3Cross a b)) as Hc.
  rewrite seV3Cross_dot_self in Hc.
  pose proof (seV3Length_nonneg a) as Pa.
  pose proof (seV3Length_nonneg b) as Pb.
  set (la := seV3Length a) in *. set (lb := seV3Length b) in *.
  set (d := seV3Dot a b) in *.
  assert (Hsq : d * d <= (la * lb) * (la * lb)).
  { replace (la * lb * (la * lb)) with ((la * la) * (lb * lb)) by ring.
    rewrite Ha, Hb. lra. }
  assert (Hp : 0 <= la * lb) by (apply Rmult_le_pos; assumption).
  unfold Rabs. destruct (Rcase_abs d); nra.
Qed.

(** X5: the length of a vector is never negative, and it is 0 exactly
    for the zero vector. *)
Theorem seV3Length_zero_iff (v : seVec3 R) :
  0 <= seV3Length v /\ (seV3Length v = 0 <-> v = Spec.vzero).
Proof.
  split; [apply seV3Length_nonneg |]. split.
  - intros H0.
    destruct v as [a b c].
    assert (Hd : seV3Dot (mkVec3 a b c) (mkVec3 a b c) = 0).
    { rewrite <- seV3Length_sqr, H0. ring. }
    destruct (Req_dec a 0) as [-> | Ha];
      [destruct (Req_dec b 0) as [-> | Hb];
       [destruct (Req_dec c 0) as [-> | Hc]; [reflexivity |] |] |];
      exfalso; revert Hd; vec_R; intros Hd; nra.
  - intros ->. rewrite seV3Length_dot.
    replace (seV3Dot Spec.vzero Spec.vzero) with 0 by (vec_R; ring).
    apply sqrt_0.
Qed.

(** X6: a vector other than the zero vector is normalized to a vector of
    length 1, which normalizing again leaves as it is. *)
Theorem seV3Normalize_length (v : seVec3 R) :
  v <> Spec.vzero ->
  seV3Length (seV3Normalize v) = 1 /\
  seV3Normalize (seV3Normalize v) = seV3Normalize v.
Proof.
  intros Hv.
  assert (H1 : seV3Length (seV3Normalize v) = 1).
  { rewrite seV3Length_dot, (seV3Normalize_unit Hv). apply sqrt_1. }
  split; [exact H1 |].
  unfold seV3Normalize at 1. cbv zeta. rewrite H1.
  destruct (seV3Normalize v) as [a b c]. cbv [x y z]. at_R.
  apply seVec3_eq; field.
Qed.

Lemma seVec3_nonzero_z (a b c : R) : c <> 0 -> mkVec3 a b c <> Spec.vzero.
Proof. intros Hc H. apply (f_equal (@z R)) in H. exact (Hc H). Qed.

Lemma seV3Normalize_length_witness :
  mkVec3 0 0 2 <> Spec.vzero /\
  seV3Length (seV3Normalize (mkVec3 0 0 2)) = 1 /\
  seV3Normalize (seV3Normalize (mkVec3 0 0 2)) = seV3Normalize (mkVec3 0 0 2).
Proof.
  assert (H : mkVec3 0 0 2 <> Spec.vzero) by (apply seVec3_nonzero_z; lra).
  split; [exact H | exact (seV3Normalize_length H)].
Defined.

(** X7: [seV3Scale(v, len)] of a vector other than the zero vector has
    length |len|, whatever the length of [v] was, and scaling [v] to its
    own length gives [v] back. *)
Theorem seV3Scale_length (v : seVec3 R) (len : R) :
  v <> Spec.vzero ->
  seV3Length (seV3Scale v len) = Rabs len /\
  seV3Scale v (seV3Length v) = v.
Proof.
  intros Hv. split.
  - pose proof (seV3Normalize_unit Hv) as Hn.
    rewrite seV3Length_dot. unfold seV3Scale. cbv zeta.
    destruct (seV3Normalize v) as [a b c].
    revert Hn. vec_R. intros Hn.
    replace (a * len * (a * len) + b * len * (b * len) + c * len * (c * len))
      with ((a * a + b * b + c * c) * (len * len)) by ring.
    rewrite Hn, Rmult_1_l.
    fold (Rsqr len). apply sqrt_Rsqr_abs.
  - pose proof (seV3Length_pos Hv) as Hlen.
    unfold seV3Scale, seV3Normalize. cbv zeta.
    set (l := seV3Length v) in *. destruct v as [a b c].
    cbv [x y z]. at_R. apply seVec3_eq; field; lra.
Qed.

Lemma seV3Scale_length_witness :
  mkVec3 0 0 2 <> Spec.vzero /\
  seV3Length (seV3Scale (mkVec3 0 0 2) (-3)) = Rabs (-3) /\
  seV3Scale (mkVec3 0 0 2) (seV3Length (mkVec3 0 0 2)) = mkVec3 0 0 2.
Proof.
  assert (H : mkVec3 0 0 2 <> Spec.vzero) by (apply seVec3_nonzero_z; lra).
  split; [exact H | exact (seV3Scale_length (-3) H)].
Defined.

(** X8: addition and subtraction of vectors undo each other. *)
Theorem seV3Add_Subtract (a b : seVec3 R) :
  seV3Subtract (seV3Add a b) b = a /\ seV3Add (seV3Subtract a b) b = a.
Proof.
  destruct a as [a1 a2 a3], b as [b1 b2 b3].
  split; vec_R; apply seVec3_eq; ring.
Qed.

(** X9: the product of a 3x3 matrix and a vector is additive in the
    vector, and the upper-left block of [seM4Identity()] maps every
    vector to itself. *)
Theorem seV3MultiplyM3_linear (m : seMat3 R) (a b : seVec3 R) :
  seV3MultiplyM3 m (seV3Add a b) =
    seV3Add (seV3MultiplyM3 m a) (seV3MultiplyM3 m b) /\
  seV3MultiplyM3 (upper3 seM4Identity) a = a.
Proof.
  rewrite seM4Identity_R.
  destruct m, a as [a1 a2 a3], b as [b1 b2 b3].
  split; cbv [upper3 elem get_e Nat.mul Nat.add
              e0 e1 e2 e3 e4 e5 e6 e7 e8 e9 e10 e11 e12 e13 e14 e15];
    vec_R; apply seVec3_eq; ring.
Qed.
End VectorAlgebra.

(** ** Affine transformations *)

Section Affine.
Local Open Scope R_scope.

Lemma seM4Translate_R (tx ty tz : R) :
  seM4Translate tx ty tz = mkMat4 1 0 0 tx  0 1 0 ty  0 0 1 tz  0 0 0 1.
Proof.
  unfold seM4Translate. rewrite seM4Fill_R_0, flit_R_1. reflexivity.
Qed.

Lemma seM4Scale_R (sx sy sz : R) :
  seM4Scale sx sy sz = mkMat4 sx 0 0 0  0 sy 0 0  0 0 sz 0  0 0 0 1.
Proof.
  unfold seM4Scale. rewrite seM4Fill_R_0.
  cbv [set_e of_double dlit R_Libm R_DoubleLit].
  rewrite RMicromega.Q2R_1. reflexivity.
Qed.

Ltac mat_R :=
  cbv [seM4Multiply e0 e1 e2 e3 e4 e5 e6 e7 e8 e9 e10 e11 e12 e13 e14 e15];
  at_R.

(** X10: translations compose by adding their offsets, the translation
    by (0,0,0) is the identity, and so each translation is undone by the
    opposite one. *)
Theorem seM4Translate_compose (a b c a' b' c' : R) :
  seM4Multiply (seM4Translate a b c) (seM4Translate a' b' c') =
    seM4Translate (a + a') (b + b') (c + c') /\
  seM4Translate 0 0 0 = seM4Identity /\
  seM4Multiply (seM4Translate a b c) (seM4Translate (- a) (- b) (- c)) =
    seM4Identity.
Proof.
  rewrite !seM4Translate_R, seM4Identity_R.
  repeat split; mat_R; apply seMat4_eq; ring.
Qed.

(** X11: scalings compose by multiplying their factors, and the scaling
    by (1,1,1) is the identity. *)
Theorem seM4Scale_compose (a b c a' b' c' : R) :
  seM4Multiply (seM4Scale a b c) (seM4Scale a' b' c') =
    seM4Scale (a * a') (b * b') (c * c') /\
  seM4Scale 1 1 1 = seM4Identity.
Proof.
  rewrite !seM4Scale_R, seM4Identity_R.
  split; mat_R; apply seMat4_eq; ring.
Qed.

(** X12: a scaling by factors other than 0 is undone by the scaling by
    the inverse factors. *)
Theorem seM4Scale_inverse (a b c : R) :
  a <> 0 -> b <> 0 -> c <> 0 ->
  seM4Multiply (seM4Scale a b c) (seM4Scale (/ a) (/ b) (/ c)) =
    seM4Identity /\
  seM4Multiply (seM4Scale (/ a) (/ b) (/ c)) (seM4Scale a b c) =
    seM4Identity.
Proof.
  intros Ha Hb Hc. rewrite !seM4Scale_R, seM4Identity_R.
  split; mat_R; apply seMat4_eq; field; assumption.
Qed.

Lemma seM4Scale_inverse_witness :
  2 <> 0 /\ 3 <> 0 /\ 4 <> 0 /\
  seM4Multiply (seM4Scale 2 3 4) (seM4Scale (/ 2) (/ 3) (/ 4)) =
    seM4Identity /\
  seM4Multiply (seM4Scale (/ 2) (/ 3) (/ 4)) (seM4Scale 2 3 4) =
    seM4Identity.
Proof.
  assert (H2 : 2 <> 0) by lra. assert (H3 : 3 <> 0) by lra.
  assert (H4 : 4 <> 0) by lra.
  split; [exact H2 | split; [exact H3 | split; [exact H4 |]]].
  exact (seM4Scale_inverse H2 H3 H4).
Defined.

(** X13: the matrix product is not commutative: a translation and a
    scaling commute exactly when every offset is unchanged by its
    factor. *)
Theorem seM4Multiply_Translate_Scale (tx ty tz sx sy sz : R) :
  seM4Multiply (seM4Translate tx ty tz) (seM4Scale sx sy sz) =
  seM4Multiply (seM4Scale sx sy sz) (seM4Translate tx ty tz) <->
  sx * tx = tx /\ sy * ty = ty /\ sz * tz = tz.
Proof.
  rewrite seM4Translate_R, seM4Scale_R. mat_R. split.
  - intros H.
    pose proof (f_equal (@e3 R) H) as H3.
    pose proof (f_equal (@e7 R) H) as H7.
    pose proof (f_equal (@e11 R) H) as H11.
    cbv [e3 e7 e11] in H3, H7, H11. repeat split; lra.
  - intros (H1 & H2 & H3). apply seMat4_eq; try ring; lra.
Qed.

(** X14: where the bottom row of [B] starts with three zeros, the
    upper-left block of [seM4Multiply(A, B)] acts on a vector as the block
    of [B] followed by the block of [A]. *)
Theorem seM4Multiply_upper3 (A B : seMat4 R) (v : seVec3 R) :
  elem B 3 0 = 0 -> elem B 3 1 = 0 -> elem B 3 2 = 0 ->
  seV3MultiplyM3 (upper3 (seM4Multiply A B)) v =
  seV3MultiplyM3 (upper3 A) (seV3MultiplyM3 (upper3 B) v).
Proof.
  destruct A, B, v as [v1 v2 v3].
  cbv [elem get_e Nat.mul Nat.add upper3 seM4Multiply
       e0 e1 e2 e3 e4 e5 e6 e7 e8 e9 e10 e11 e12 e13 e14 e15].
  intros -> -> ->. vec_R. apply seVec3_eq; ring.
Qed.

Lemma seM4Multiply_upper3_witness :
  let A := seM4Translate 1 2 3 in
  let B := seM4Scale 2 3 4 in
  let v := mkVec3 1 1 1 in
  elem B 3 0 = 0 /\ elem B 3 1 = 0 /\ elem B 3 2 = 0 /\
  seV3MultiplyM3 (upper3 (seM4Multiply A B)) v =
  seV3MultiplyM3 (upper3 A) (seV3MultiplyM3 (upper3 B) v).
Proof.
  intros A B v.
  assert (H0 : elem B 3 0 = 0) by (unfold B; rewrite seM4Scale_R; reflexivity).
  assert (H1 : elem B 3 1 = 0) by (unfold B; rewrite seM4Scale_R; reflexivity).
  assert (H2 : elem B 3 2 = 0) by (unfold B; rewrite seM4Scale_R; reflexivity).
  split; [exact H0 | split; [exact H1 | split; [exact H2 |]]].
  exact (seM4Multiply_upper3 A B v H0 H1 H2).
Defined.
End Affine.

(** ** Rotations *)

Section Rotations.
Local Open Scope R_scope.

Lemma SE_DEG2RAD_R_0 : SE_DEG2RAD 0 = 0.
Proof. unfold SE_DEG2RAD. at_R. ring. Qed.

Lemma sin_cos_sqr (a : R) : sin a * sin a + cos a * cos a = 1.
Proof. apply (sin2_cos2 a). Qed.

Ltac rot_R :=
  cbv [upper3 row3 elem get_e Nat.mul Nat.add seM4Multiply
       e0 e1 e2 e3 e4 e5 e6 e7 e8 e9 e10 e11 e12 e13 e14 e15];
  vec_R.

(** X15: the Euler rotation is the product of the three rotations about
    one axis each, as the function itself builds them:
    [seM4RotateEuler(ax, ay, az)] is [seM4RotateEuler(ax, 0, 0)] times
    [seM4RotateEuler(0, ay, 0)] times [seM4RotateEuler(0, 0, az)]. *)
Theorem seM4RotateEuler_factors (ax ay az : R) :
  seM4RotateEuler ax ay az =
  seM4Multiply (seM4RotateEuler ax 0 0)
    (seM4Multiply (seM4RotateEuler 0 ay 0) (seM4RotateEuler 0 0 az)).
Proof.
  unfold seM4RotateEuler. rewrite SE_DEG2RAD_R_0.
  rot_R. rewrite cos_0, sin_0.
  apply seMat4_eq; ring.
Qed.

(** X16: the rows of the upper-left block of [seM4RotateEuler] are of
    length 1 and pairwise orthogonal, for all angles, and the rotation
    keeps the length of every vector. *)
Theorem seM4RotateEuler_isometry (ax ay az : R) (w : seVec3 R) :
  let M := seM4RotateEuler ax ay az in
  seV3Dot (row3 M 0) (row3 M 0) = 1 /\
  seV3Dot (row3 M 1) (row3 M 1) = 1 /\
  seV3Dot (row3 M 2) (row3 M 2) = 1 /\
  seV3Dot (row3 M 0) (row3 M 1) = 0 /\
  seV3Dot (row3 M 0) (row3 M 2) = 0 /\
  seV3Dot (row3 M 1) (row3 M 2) = 0 /\
  seV3Length (seV3MultiplyM3 (upper3 M) w) = seV3Length w.
Proof.
  cbv zeta. rewrite !seV3Length_dot.
  unfold seM4RotateEuler. destruct w as [w1 w2 w3]. rot_R.
  pose proof (sin_cos_sqr (SE_DEG2RAD ax)) as Hx.
  pose proof (sin_cos_sqr (SE_DEG2RAD ay)) as Hy.
  pose proof (sin_cos_sqr (SE_DEG2RAD az)) as Hz.
  set (cx := cos (SE_DEG2RAD ax)) in *. set (sx := sin (SE_DEG2RAD ax)) in *.
  set (cy := cos (SE_DEG2RAD ay)) in *. set (sy := sin (SE_DEG2RAD ay)) in *.
  set (cz := cos (SE_DEG2RAD az)) in *. set (sz := sin (SE_DEG2RAD az)) in *.
  clearbody cx sx cy sy cz sz.
  repeat (split; [nsatz |]). f_equal. nsatz.
Qed.

(** The axis and the angle of [seM4RotateAA] as the proofs use them: a
    vector [n] with n . n = 1, and [c], [s] with s^2 + c^2 = 1. *)
Ltac axis_angle v t Hv :=
  unfold seM4RotateAA; cbv zeta;
  pose proof (seV3Normalize_unit Hv) as Hn;
  pose proof (sin_cos_sqr (t * flit 0.01745329251)) as Hcs;
  set (n := seV3Normalize v) in *; clearbody n;
  destruct n as [n1 n2 n3];
  revert Hn Hcs; rot_R; intros Hn Hcs;
  set (c := cos (t * Q2R 0.01745329251)) in *;
  set (s := sin (t * Q2R 0.01745329251)) in *;
  clearbody c s.

(** X17: the axis-angle rotation leaves its (normalized) axis fixed. *)
Theorem seM4RotateAA_axis (v : seVec3 R) (t : R) :
  v <> Spec.vzero ->
  seV3MultiplyM3 (upper3 (seM4RotateAA v t)) (seV3Normalize v) =
  seV3Normalize v.
Proof.
  intros Hv. axis_angle v t Hv.
  apply seVec3_eq; nsatz.
Qed.

Lemma seM4RotateAA_axis_witness :
  mkVec3 0 0 2 <> Spec.vzero /\
  seV3MultiplyM3 (upper3 (seM4RotateAA (mkVec3 0 0 2) 90))
    (seV3Normalize (mkVec3 0 0 2)) =
  seV3Normalize (mkVec3 0 0 2).
Proof.
  assert (H : mkVec3 0 0 2 <> Spec.vzero) by (apply seVec3_nonzero_z; lra).
  split; [exact H | exact (seM4RotateAA_axis 90 H)].
Defined.

(** X18: for an axis other than the zero vector, the rows of the
    upper-left block of [seM4RotateAA] are of length 1 and pairwise
    orthogonal, and the rotation keeps the length of every vector. *)
Theorem seM4RotateAA_isometry (v : seVec3 R) (t : R) (w : seVec3 R) :
  v <> Spec.vzero ->
  let M := seM4RotateAA v t in
  seV3Dot (row3 M 0) (row3 M 0) = 1 /\
  seV3Dot (row3 M 1) (row3 M 1) = 1 /\
  seV3Dot (row3 M 2) (row3 M 2) = 1 /\
  seV3Dot (row3 M 0) (row3 M 1) = 0 /\
  seV3Dot (row3 M 0) (row3 M 2) = 0 /\
  seV3Dot (row3 M 1) (row3 M 2) = 0 /\
  seV3Length (seV3MultiplyM3 (upper3 M) w) = seV3Length w.
Proof.
  intros Hv. cbv zeta. rewrite !seV3Length_dot.
  destruct w as [w1 w2 w3]. axis_angle v t Hv.
  repeat (split; [nsatz |]). f_equal. nsatz.
Qed.

Lemma seM4RotateAA_isometry_witness :
  let v := mkVec3 0 0 2 in
  let w := mkVec3 1 2 3 in
  let M := seM4RotateAA v 90 in
  v <> Spec.vzero /\
  seV3Dot (row3 M 0) (row3 M 0) = 1 /\
  seV3Dot (row3 M 1) (row3 M 1) = 1 /\
  seV3Dot (row3 M 2) (row3 M 2) = 1 /\
  seV3Dot (row3 M 0) (row3 M 1) = 0 /\
  seV3Dot (row3 M 0) (row3 M 2) = 0 /\
  seV3Dot (row3 M 1) (row3 M 2) = 0 /\
  seV3Length (seV3MultiplyM3 (upper3 M) w) = seV3Length w.
Proof.
  intros v w M.
  assert (H : v <> Spec.vzero) by (apply seVec3_nonzero_z; lra).
  split; [exact H | exact (seM4RotateAA_isometry 90 w H)].
Defined.

(** X19: about every axis other than the zero vector, the rotation by
    the angle 0 is the identity. *)
Theorem seM4RotateAA_zero_angle (v : seVec3 R) :
  v <> Spec.vzero ->
  seM4RotateAA v 0 = seM4Identity.
Proof.
  intros Hv. pose proof (seV3Normalize_unit Hv) as Hn.
  rewrite seM4Identity_R. unfold seM4RotateAA. cbv zeta.
  destruct (seV3Normalize v) as [n1 n2 n3].
  revert Hn. cbv [seV3Dot x y z]. at_R. intros Hn.
  rewrite Rmult_0_l, cos_0, sin_0. apply seMat4_eq; ring.
Qed.

Lemma seM4RotateAA_zero_angle_witness :
  mkVec3 0 0 2 <> Spec.vzero /\
  seM4RotateAA (mkVec3 0 0 2) 0 = seM4Identity.
Proof.
  assert (H : mkVec3 0 0 2 <> Spec.vzero) by (apply seVec3_nonzero_z; lra).
  split; [exact H | exact (seM4RotateAA_zero_angle H)].
Defined.
End Rotations.

(** ** The view and the projection *)

Section ViewProjection.
Local Open Scope R_scope.

(** A camera on the third axis looking along it, with the second axis
    up: [center - eye] is not the zero vector and front is not parallel
    to up. *)
Lemma view_along_z (e c : R) :
  c <> e ->
  let eye := mkVec3 0 0 e in
  let center := mkVec3 0 0 c in
  let up := mkVec3 0 1 0 in
  seV3Subtract center eye <> Spec.vzero /\
  seV3Cross (seV3Normalize (seV3Subtract center eye)) up <> Spec.vzero.
Proof.
  intros Hce eye center up.
  assert (Hd : seV3Subtract center eye <> Spec.vzero).
  { apply seVec3_nonzero_z. cbv [center eye z]. at_R. lra. }
  split; [exact Hd |].
  pose proof (seV3Length_pos Hd) as Hlen.
  intros H. apply (f_equal (@x R)) in H.
  unfold seV3Normalize in H.
  set (len := seV3Length (seV3Subtract center eye)) in *.
  cbv [seV3Cross seV3Subtract Spec.vzero center eye up x y z] in H.
  at_R.
  assert (Hinv : 0 < / len) by (apply Rinv_0_lt_compat, Hlen).
  unfold Rdiv in H. destruct (Rtotal_order c e) as [Hlt | [Heq | Hgt]]; nra.
Qed.

(** X20: when [center] is not [eye] and front is not parallel to [up]
    (the cross product of front and [up] is not the zero vector), the
    view matrix sends the eye to the origin: each of the first three
    rows, applied to the point [eye], gives 0. *)
Theorem seM4LookAt_eye (eye center up : seVec3 R) :
  seV3Subtract center eye <> Spec.vzero ->
  seV3Cross (seV3Normalize (seV3Subtract center eye)) up <> Spec.vzero ->
  let M := seM4LookAt eye center up in
  seV3Dot (row3 M 0) eye + get_e M 3 = 0 /\
  seV3Dot (row3 M 1) eye + get_e M 7 = 0 /\
  seV3Dot (row3 M 2) eye + get_e M 11 = 0.
Proof.
  intros _ _. cbv zeta.
  destruct (seM4LookAt_rows eye center up) as (-> & -> & ->).
  unfold seM4LookAt. cbv zeta. cbv [get_e e3 e7 e11]. cbn [fneg R_Scalar].
  repeat split; try ring.
  rewrite (seV3Dot_comm (Spec.vneg _)), seV3Dot_vneg_r, (seV3Dot_comm eye).
  ring.
Qed.

Lemma seM4LookAt_eye_witness :
  let eye := mkVec3 0 0 5 in
  let center := mkVec3 0 0 0 in
  let up := mkVec3 0 1 0 in
  let M := seM4LookAt eye center up in
  seV3Subtract center eye <> Spec.vzero /\
  seV3Cross (seV3Normalize (seV3Subtract center eye)) up <> Spec.vzero /\
  seV3Dot (row3 M 0) eye + get_e M 3 = 0 /\
  seV3Dot (row3 M 1) eye + get_e M 7 = 0 /\
  seV3Dot (row3 M 2) eye + get_e M 11 = 0.
Proof.
  intros eye center up M.
  assert (Hce : 0 <> 5) by lra.
  destruct (view_along_z Hce) as [Hd Hw].
  split; [exact Hd | split; [exact Hw |]].
  exact (seM4LookAt_eye Hd Hw).
Defined.

(** X21: when [center] is not [eye] and front is not parallel to [up],
    the view matrix sends [center] to the point at the distance
    |center - eye| down the negative third axis. *)
Theorem seM4LookAt_center (eye center up : seVec3 R) :
  seV3Subtract center eye <> Spec.vzero ->
  seV3Cross (seV3Normalize (seV3Subtract center eye)) up <> Spec.vzero ->
  let M := seM4LookAt eye center up in
  seV3Dot (row3 M 0) center + get_e M 3 = 0 /\
  seV3Dot (row3 M 1) center + get_e M 7 = 0 /\
  seV3Dot (row3 M 2) center + get_e M 11 =
    - seV3Length (seV3Subtract center eye).
Proof.
  intros Hd Hw. cbv zeta.
  destruct (seM4LookAt_rows eye center up) as (-> & -> & ->).
  unfold seM4LookAt. cbv zeta. cbv [get_e e3 e7 e11]. cbn [fneg R_Scalar].
  pose proof (seV3Length_pos Hd) as Hlen.
  pose proof (seV3Length_pos Hw) as Hlw.
  pose proof (seV3Length_sqr (seV3Subtract center eye)) as Hsq.
  set (d := seV3Subtract center eye) in *.
  set (f := seV3Normalize d) in *.
  set (s := seV3Normalize (seV3Cross f up)).
  assert (Hfd : seV3Dot f d = seV3Length d).
  { unfold f. rewrite seV3Dot_normalize_l, <- Hsq. field. lra. }
  assert (Hdf : forall w, seV3Dot w f = 0 -> seV3Dot w d = 0).
  { intros w Hw0. rewrite seV3Dot_comm in Hw0. unfold f in Hw0.
    rewrite seV3Dot_normalize_l in Hw0. rewrite seV3Dot_comm.
    apply (Rmult_eq_compat_r (seV3Length d)) in Hw0.
    replace (seV3Dot d w / seV3Length d * seV3Length d)
      with (seV3Dot d w) in Hw0 by (field; lra).
    lra. }
  assert (Hsplit : forall w, seV3Dot w center - seV3Dot w eye = seV3Dot w d).
  { intros [w1 w2 w3]. unfold d.
    destruct center as [c1 c2 c3], eye as [e1 e2 e3]. vec_R. ring. }
  assert (Hs : seV3Dot s d = 0).
  { apply Hdf. unfold s. rewrite seV3Dot_normalize_l, seV3Cross_dot_l.
    field. lra. }
  assert (Hu : seV3Dot (seV3Cross s f) d = 0).
  { apply Hdf, seV3Cross_dot_r. }
  repeat split.
  - rewrite <- Hs, <- Hsplit. ring.
  - rewrite <- Hu, <- Hsplit. ring.
  - rewrite (seV3Dot_comm (Spec.vneg _)), seV3Dot_vneg_r, <- Hfd.
    rewrite <- (Hsplit f), (seV3Dot_comm center). ring.
Qed.

Lemma seM4LookAt_center_witness :
  let eye := mkVec3 0 0 5 in
  let center := mkVec3 0 0 0 in
  let up := mkVec3 0 1 0 in
  let M := seM4LookAt eye center up in
  seV3Subtract center eye <> Spec.vzero /\
  seV3Cross (seV3Normalize (seV3Subtract center eye)) up <> Spec.vzero /\
  seV3Dot (row3 M 0) center + get_e M 3 = 0 /\
  seV3Dot (row3 M 1) center + get_e M 7 = 0 /\
  seV3Dot (row3 M 2) center + get_e M 11 =
    - seV3Length (seV3Subtract center eye).
Proof.
  intros eye center up M.
  assert (Hce : 0 <> 5) by lra.
  destruct (view_along_z Hce) as [Hd Hw].
  split; [exact Hd | split; [exact Hw |]].
  exact (seM4LookAt_center Hd Hw).
Defined.

(** X22: with [near] other than [far], the projection matrix sends a
    point at the depth -near to clip coordinates with z = -w and a point
    at the depth -far to clip coordinates with z = +w (w = near and
    w = far): the two planes land on the depths -1 and +1. *)
Theorem seM4Perspective_planes (angle ratio near far : R) :
  near <> far ->
  let M := seM4Perspective angle ratio near far in
  elem M 2 2 * (- near) + elem M 2 3 = - near /\
  elem M 3 2 * (- near) + elem M 3 3 = near /\
  elem M 2 2 * (- far) + elem M 2 3 = far /\
  elem M 3 2 * (- far) + elem M 3 3 = far.
Proof.
  intros Hnf. cbv zeta. unfold seM4Perspective. rewrite seM4Fill_R_0.
  cbv [elem get_e set_e Nat.mul Nat.add
       e0 e1 e2 e3 e4 e5 e6 e7 e8 e9 e10 e11 e12 e13 e14 e15].
  at_R. repeat split; field; lra.
Qed.

Lemma seM4Perspective_planes_witness :
  let M := seM4Perspective 1 1 1 100 in
  1 <> 100 /\
  elem M 2 2 * (- 1) + elem M 2 3 = - 1 /\
  elem M 3 2 * (- 1) + elem M 3 3 = 1 /\
  elem M 2 2 * (- 100) + elem M 2 3 = 100 /\
  elem M 3 2 * (- 100) + elem M 3 3 = 100.
Proof.
  intros M. assert (H : 1 <> 100) by lra.
  split; [exact H | exact (seM4Perspective_planes 1 1 H)].
Defined.

Lemma SE_PI_R_pos : 0 < SE_PI.
Proof. unfold SE_PI. cbv [flit R_Scalar Q2R Qnum Qden]. lra. Qed.

(** X23: in exact arithmetic the two conversion macros undo each
    other. *)
Theorem SE_RAD2DEG_DEG2RAD (a : R) :
  SE_RAD2DEG (SE_DEG2RAD a) = a /\ SE_DEG2RAD (SE_RAD2DEG a) = a.
Proof.
  pose proof SE_PI_R_pos as Hpi.
  unfold SE_RAD2DEG, SE_DEG2RAD. set (p := SE_PI) in *.
  assert (H180 : flit 180 = 180)
    by (cbv [flit R_Scalar Q2R Qnum Qden]; lra).
  rewrite H180. at_R. split; field; lra.
Qed.
End ViewProjection.

(** ** Binary32: exact commutativity, overflow, underflow and NaN *)

Section Binary32Edge.
Local Open Scope scalar_scope.

Lemma SFmul_comm (prec emax : Z) (a b : spec_float) :
  SFmul prec emax a b = SFmul prec emax b a.
Proof.
  destruct a as [s | s | | s m e], b as [s' | s' | | s' m' e'];
    cbn [SFmul]; rewrite ?(xorb_comm s s'); try reflexivity.
  rewrite Pos.mul_comm, Z.add_comm. reflexivity.
Qed.

Lemma SFadd_comm (prec emax : Z) (a b : spec_float) :
  SFadd prec emax a b = SFadd prec emax b a.
Proof.
  destruct a as [s | s | | s m e], b as [s' | s' | | s' m' e'];
    cbn [SFadd]; try reflexivity; try (destruct s, s'; reflexivity).
  rewrite Z.min_comm, Z.add_comm. reflexivity.
Qed.

(** X24: in binary32 the dot product and the sum of vectors are
    commutative without any rounding difference: the two results are the
    same datum, that is the same zero, the same finite number (sign,
    mantissa and exponent), the same infinity, or NaN both.  The sign and
    the payload of a NaN are not part of the data compared. *)
Theorem seV3Dot_b32_comm (a b : seVec3 spec_float) :
  seV3Dot a b = seV3Dot b a /\ seV3Add a b = seV3Add b a.
Proof.
  destruct a as [a1 a2 a3], b as [b1 b2 b3].
  cbv [seV3Dot seV3Add x y z fadd fmul b32_Scalar].
  rewrite (SFmul_comm _ _ a1), (SFmul_comm _ _ a2), (SFmul_comm _ _ a3).
  rewrite (SFadd_comm _ _ a1), (SFadd_comm _ _ a2), (SFadd_comm _ _ a3).
  split; reflexivity.
Qed.

(** X25: when the sum of the squares overflows, so that the length is
    +infinity, every component of the normalized vector is a zero: the
    result is not of length 1. *)
Theorem seV3Normalize_b32_overflow (v : seVec3 spec_float) :
  ok32 (x v) = true -> ok32 (y v) = true -> ok32 (z v) = true ->
  seV3Length v = S754_infinity false ->
  let r := seV3Normalize v in
  is_zero (x r) = true /\ is_zero (y r) = true /\ is_zero (z r) = true.
Proof.
  intros Hx Hy Hz Hlen. cbv zeta. unfold seV3Normalize. cbv zeta.
  rewrite Hlen. destruct v as [a b c]. cbv [x y z] in *.
  cbv [fdiv b32_Scalar].
  destruct a; try discriminate Hx; destruct b; try discriminate Hy;
    destruct c; try discriminate Hz; repeat split.
Qed.

Lemma seV3Normalize_b32_overflow_witness :
  let v := mkVec3 (f32 1e30) (f32 0) (f32 (-2)) in
  let r := seV3Normalize v in
  ok32 (x v) = true /\ ok32 (y v) = true /\ ok32 (z v) = true /\
  seV3Length v = S754_infinity false /\
  is_zero (x r) = true /\ is_zero (y r) = true /\ is_zero (z r) = true.
Proof.
  intros v r.
  assert (Hx : ok32 (x v) = true) by reflexivity.
  assert (Hy : ok32 (y v) = true) by reflexivity.
  assert (Hz : ok32 (z v) = true) by reflexivity.
  assert (Hl : seV3Length v = S754_infinity false) by reflexivity.
  split; [exact Hx | split; [exact Hy | split; [exact Hz | split; [exact Hl |]]]].
  exact (seV3Normalize_b32_overflow v Hx Hy Hz Hl).
Defined.

(** X26: when the squares underflow, so that the length of a vector of
    numbers is +0, no component of the normalized vector is a number:
    each is an infinity or NaN. *)
Theorem seV3Normalize_b32_underflow (v : seVec3 spec_float) :
  ok32 (x v) = true -> ok32 (y v) = true -> ok32 (z v) = true ->
  seV3Length v = S754_zero false ->
  let r := seV3Normalize v in
  B32.is_finite (x r) = false /\
  B32.is_finite (y r) = false /\
  B32.is_finite (z r) = false.
Proof.
  intros Hx Hy Hz Hlen. cbv zeta. unfold seV3Normalize. cbv zeta.
  rewrite Hlen. destruct v as [a b c]. cbv [x y z] in *.
  cbv [fdiv b32_Scalar].
  destruct a; try discriminate Hx; destruct b; try discriminate Hy;
    destruct c; try discriminate Hz; repeat split.
Qed.

Lemma seV3Normalize_b32_underflow_witness :
  let v := mkVec3 (f32 1e-30) (f32 0) (f32 (-1e-25)) in
  let r := seV3Normalize v in
  ok32 (x v) = true /\ ok32 (y v) = true /\ ok32 (z v) = true /\
  seV3Length v = S754_zero false /\
  B32.is_finite (x r) = false /\
  B32.is_finite (y r) = false /\
  B32.is_finite (z r) = false.
Proof.
  intros v r.
  assert (Hx : ok32 (x v) = true) by reflexivity.
  assert (Hy : ok32 (y v) = true) by reflexivity.
  assert (Hz : ok32 (z v) = true) by reflexivity.
  assert (Hl : seV3Length v = S754_zero false) by reflexivity.
  split; [exact Hx | split; [exact Hy | split; [exact Hz | split; [exact Hl |]]]].
  exact (seV3Normalize_b32_underflow v Hx Hy Hz Hl).
Defined.

Lemma SFadd_nan_r (prec emax : Z) (a : spec_float) :
  SFadd prec emax a S754_nan = S754_nan.
Proof. destruct a; reflexivity. Qed.

Lemma SFsub_diag (prec emax : Z) (a : spec_float) :
  SFsub prec emax a a = S754_zero false \/ SFsub prec emax a a = S754_nan.
Proof.
  destruct a as [s | s | | s m e]; cbn [SFsub].
  - left. destruct s; reflexivity.
  - right. destruct s; reflexivity.
  - right. reflexivity.
  - left. rewrite Z.sub_diag. reflexivity.
Qed.

Lemma seV3Normalize_b32_diag (a b c : spec_float) :
  let d := mkVec3 (SFsub B32.prec B32.emax a a) (SFsub B32.prec B32.emax b b)
                  (SFsub B32.prec B32.emax c c) in
  seV3Normalize d = mkVec3 S754_nan S754_nan S754_nan.
Proof.
  cbv zeta.
  destruct (SFsub_diag B32.prec B32.emax a) as [-> | ->];
    destruct (SFsub_diag B32.prec B32.emax b) as [-> | ->];
    destruct (SFsub_diag B32.prec B32.emax c) as [-> | ->]; reflexivity.
Qed.

(** X27: [seM4LookAt(eye, center, up)] with [center] equal to [eye]: in
    binary32 the twelve entries of the first three rows are NaN, for
    every [eye] and every [up]; the bottom row is still (0, 0, 0, 1). *)
Theorem seM4LookAt_b32_degenerate (eye up : seVec3 spec_float) :
  seM4LookAt eye eye up =
  mkMat4 S754_nan S754_nan S754_nan S754_nan
         S754_nan S754_nan S754_nan S754_nan
         S754_nan S754_nan S754_nan S754_nan
         (f32 0) (f32 0) (f32 0) (f32 1).
Proof.
  unfold seM4LookAt. cbv zeta.
  replace (seV3Normalize (seV3Subtract eye eye))
    with (mkVec3 S754_nan S754_nan S754_nan)
    by (symmetry; apply seV3Normalize_b32_diag).
  destruct eye as [e1 e2 e3], up as [u1 u2 u3]. reflexivity.
Qed.

Section ZeroAxis.
Variables cos64 sin64 tan64 : spec_float -> spec_float.

(** X28: [seM4RotateAA] about a zero vector: in binary32 the nine
    entries of the upper-left block are NaN, for every angle and whatever
    the cosine and the sine of the C library return. *)
Theorem seM4RotateAA_b32_zero_axis (sx sy sz : bool) (t : spec_float) :
  let v := mkVec3 (S754_zero sx) (S754_zero sy) (S754_zero sz) in
  let M := seM4RotateAA (LM := b64_Libm cos64 sin64 tan64) v t in
  upper3 M =
    mkMat3 S754_nan S754_nan S754_nan
           S754_nan S754_nan S754_nan
           S754_nan S754_nan S754_nan /\
  column4 M = mkVec3 (f32 0) (f32 0) (f32 0) /\
  bottom_row M = (f32 0, f32 0, f32 0, f32 1).
Proof.
  cbv zeta. unfold seM4RotateAA. cbv zeta.
  replace (seV3Normalize (mkVec3 (S754_zero sx) (S754_zero sy) (S754_zero sz)))
    with (mkVec3 S754_nan S754_nan S754_nan)
    by (destruct sx, sy, sz; reflexivity).
  cbv [upper3 column4 bottom_row elem get_e Nat.mul Nat.add x y z
       e0 e1 e2 e3 e4 e5 e6 e7 e8 e9 e10 e11 e12 e13 e14 e15
       fadd fmul fneg b32_Scalar].
  cbn [SFopp SFmul SFadd]. rewrite !SFadd_nan_r.
  repeat split.
Qed.
End ZeroAxis.

(** X29: in binary32, [SE_PI / 180.0f] and [0.01745329251f] are the same
    number, so that [seM4RotateEuler] and [seM4RotateAA] convert every
    angle to the same radians; in exact arithmetic the two factors
    differ. *)
Theorem SE_DEG2RAD_b32_factor :
  (forall t : spec_float, SE_DEG2RAD t = t * f32 0.01745329251) /\
  (SE_DEG2RAD 1 <> 1 * Q2R 0.01745329251)%R.
Proof.
  split.
  - intros t. reflexivity.
  - unfold SE_DEG2RAD, SE_PI. cbv [fmul fdiv flit R_Scalar Q2R Qnum Qden]. lra.
Qed.
End Binary32Edge.
